(** * split_coco_json: stratified train/val/test split of a COCO document

    A shallow embedding of [datasets/Coco-Needle/split_coco_json.py] and the
    properties of its split.

    - Python floats are IEEE-754 binary64 values, modelled by the Standard
      Library's [spec_float] with precision 53 and maximal exponent 1024;
      the arithmetic is the correctly rounded one of [SpecFloat].
    - Python integers are [Z]; list indices and slice bounds follow Python's
      rules for negative and out-of-range values.
    - The process state is the module-level generator of [random] and the
      trace of what the program did to the file system and reported to the
      operator; exceptions do not roll the state back.
    - The records of the document are carried as the keys the program reads
      plus one opaque value for everything else. The development is about
      documents whose records have these keys: on an input that lacks one
      the program raises [KeyError] at the line that reads it (between
      lines 26 and 100, before anything is written), and such inputs are
      outside the model. *)

From Stdlib Require Import ZArith QArith Qround List String Ascii Lia Permutation SpecFloat.
From stdpp Require Import base gmap sets list strings.

Local Open Scope Z_scope.

(** ** Exceptions *)

Inductive exn : Type :=
  | AssertionError
  | ValueError        (* int(nan) *)
  | OverflowError     (* int(inf), or an int too large for a float *)
  | IndexError
  | OSError           (* open() failed on the input file *)
  | JSONDecodeError.  (* json.load failed on the input file *)

#[global] Instance exn_eq_dec : EqDecision exn.
Proof. solve_decision. Defined.

(** ** Python floats *)

Module PyFloat.

Definition float : Type := spec_float.

Definition prec : Z := 53.
Definition emax : Z := 1024.

Definition add : float -> float -> float := SFadd prec emax.
Definition sub : float -> float -> float := SFsub prec emax.
Definition mul : float -> float -> float := SFmul prec emax.
Definition div : float -> float -> float := SFdiv prec emax.
Definition abs : float -> float := SFabs.
Definition ltb : float -> float -> bool := SFltb.
Definition leb : float -> float -> bool := SFleb.

(** The correctly rounded binary64 value of an integer. *)
Definition round_Z (z : Z) : float := binary_normalize prec emax z 0 false.

(** [float(n)] for a Python int, as done implicitly by [n * x]: correctly
    rounded, and an [OverflowError] when the int is out of range. *)
Definition of_int (z : Z) : exn + float :=
  match round_Z z with
  | S754_infinity _ => inl OverflowError
  | x => inr x
  end.

(** The binary64 value written as the decimal literal [n/d] (both exactly
    representable): the quotient rounded once. *)
Definition lit (n d : Z) : float := div (round_Z n) (round_Z d).

Definition zero : float := S754_zero false.
Definition one : float := Eval vm_compute in lit 1 1.

(** [int(x)]: truncation towards zero; [ValueError] on a NaN,
    [OverflowError] on an infinity. *)
Definition to_int (x : float) : exn + Z :=
  match x with
  | S754_nan => inl ValueError
  | S754_infinity _ => inl OverflowError
  | S754_zero _ => inr 0
  | S754_finite s m e =>
      let a := match e with
               | Zneg k => Z.pos m / 2 ^ Z.pos k
               | _ => Z.pos m * 2 ^ e
               end in
      inr (if s then - a else a)
  end.

(** The exact rational value of a finite float (0 for the others, which
    [to_int] rejects). *)
Definition to_Q (x : float) : Q :=
  match x with
  | S754_finite s m e =>
      let n := if s then Z.neg m else Z.pos m in
      match e with
      | Zneg k => Qmake n (2 ^ k)%positive
      | _ => inject_Z (n * 2 ^ e)
      end
  | _ => 0%Q
  end.

Definition nonneg (x : float) : bool := leb zero x.

(** A zero, or a finite float [m * 2^e] with [e <= c] whose magnitude is
    below [2^b]. *)
Definition below (b c : Z) (x : float) : Prop :=
  match x with
  | S754_zero _ => True
  | S754_finite _ m e => Z.pos (digits2_pos m) + e <= b /\ e <= c
  | _ => False
  end.

(** A ratio of ordinary size: zero, or finite and below [2^969] in
    magnitude. Every binary64 value of magnitude at most 1 is one. *)
Definition moderate (r : float) : Prop := below 969 970 r.

(** A float that is not a negative finite number. *)
Definition not_negative (x : float) : Prop :=
  match x with
  | S754_finite true _ _ => False
  | _ => True
  end.

End PyFloat.

Abbreviation float := PyFloat.float.

(** ** Python slices *)

(** A slice bound [i] against a list of length [n]: negative bounds count
    from the end, and everything is clipped to [0..n]. *)
Definition slice_index (n i : Z) : Z :=
  if i <? 0 then Z.max 0 (i + n) else Z.min i n.

(** [l[lo:hi]]; [None] is an omitted bound. *)
Definition py_slice {A} (lo hi : option Z) (l : list A) : list A :=
  let n := Z.of_nat (length l) in
  let a := slice_index n (default 0 lo) in
  let b := slice_index n (default n hi) in
  take (Z.to_nat (b - a)) (drop (Z.to_nat a) l).

(** ** Paths ([posixpath]) *)

Module Path.

Local Open Scope string_scope.

Definition sep : ascii := "/"%char.

(** The text after the last separator, and the text up to and including
    it: [p[i:]] and [p[:i]] for [i = p.rfind('/') + 1]. *)
Fixpoint tail_of (p : string) : string :=
  match p with
  | EmptyString => EmptyString
  | String c p' =>
      if bool_decide (sep ∈ list_ascii_of_string p') then tail_of p'
      else if bool_decide (c = sep) then p' else p
  end.

Fixpoint head_of (p : string) : string :=
  match p with
  | EmptyString => EmptyString
  | String c p' =>
      if bool_decide (sep ∈ list_ascii_of_string p') then String c (head_of p')
      else if bool_decide (c = sep) then String c EmptyString else EmptyString
  end.

Definition basename (p : string) : string := tail_of p.

Definition all_sep (p : string) : bool :=
  forallb (fun c => bool_decide (c = sep)) (list_ascii_of_string p).

(** [s.rstrip('/')] *)
Fixpoint drop_leading_sep (l : list ascii) : list ascii :=
  match l with
  | c :: l' => if bool_decide (c = sep) then drop_leading_sep l' else l
  | [] => []
  end.

Definition rstrip_sep (p : string) : string :=
  string_of_list_ascii (rev (drop_leading_sep (rev (list_ascii_of_string p)))).

Definition dirname (p : string) : string :=
  let head := head_of p in
  if bool_decide (head = "") || all_sep head then head else rstrip_sep head.

Definition ends_with_sep (p : string) : bool :=
  match rev (list_ascii_of_string p) with
  | c :: _ => bool_decide (c = sep)
  | [] => false
  end.

Definition starts_with_sep (p : string) : bool :=
  match p with
  | String c _ => bool_decide (c = sep)
  | EmptyString => false
  end.

(** [os.path.join(a, b)] *)
Definition join (a b : string) : string :=
  if starts_with_sep b then b
  else if bool_decide (a = "") || ends_with_sep a then a ++ b
  else a ++ "/" ++ b.

End Path.

(** ** The document *)

(** An image record: the key [id], and the rest of the record, which the
    program never looks into. Two records are equal ([==]) when both agree. *)
Record image : Type := { img_id : Z; img_rest : string }.

(** An annotation record: the keys [image_id] and [category_id], and the
    rest. *)
Record annotation : Type :=
  { ann_image_id : Z; ann_category_id : Z; ann_rest : string }.

#[global] Instance image_eq_dec : EqDecision image.
Proof. solve_decision. Defined.

#[global] Instance annotation_eq_dec : EqDecision annotation.
Proof. solve_decision. Defined.

(** The parsed input: [images] and [annotations] are required keys (a
    file without them is not a document here; the program raises on it
    right after loading), the other three are read with [data.get]. Their
    values are opaque. *)
Record document : Type := {
  images : list image;
  annotations : list annotation;
  info : option string;
  licenses : option string;
  categories : option string
}.

(** What [create_output_data] builds. *)
Record output_data : Type := {
  out_images : list image;
  out_annotations : list annotation;
  out_info : string;
  out_licenses : string;
  out_categories : string
}.

(** ** The environment and the trace *)

Inductive read_outcome : Type :=
  | ReadOk (data : document)
  | ReadFails (e : exn).

(** What opening a path for writing and dumping a document into it does. *)
Inductive write_outcome : Type :=
  | WriteOk
  | WritePermissionError
  | WriteOtherError.

Record env : Type := {
  env_read : string -> read_outcome;
  env_write : string -> write_outcome;
  env_home : string            (* os.path.expanduser('~') *)
}.

(** The messages of [save_json]. *)
Inductive message : Type :=
  | MsgSaved (p : string)
  | MsgNoPermission (p : string)
  | MsgTrying (p : string)
  | MsgSavedFallback (p : string)
  | MsgFallbackFailed
  | MsgSaveFailed.

Inductive event : Type :=
  | EvRead (p : string)                       (* open() was called on the input *)
  | EvWrite (p : string) (data : output_data) (* a file was written *)
  | EvWriteFailed (p : string)                (* a write was attempted and failed *)
  | EvPrint (m : message).

(** ** The generator of [random] *)

(** [random.seed] and [Random._randbelow], which is all [random.shuffle]
    uses; [_randbelow(n)] returns an integer in [range(n)]. *)
Class RandomSource (G : Type) : Type := {
  rs_seed : Z -> G;
  rs_randbelow : G -> nat -> nat * G;
  rs_randbelow_lt : forall g n, (0 < n)%nat -> (fst (rs_randbelow g n) < n)%nat
}.

(** ** The program monad: state and exceptions *)

Record pstate (G : Type) : Type := { st_rng : G; st_trace : list event }.
Arguments st_rng {G} _.
Arguments st_trace {G} _.
Arguments Build_pstate {G} _ _.

Definition M (G A : Type) : Type := pstate G -> (exn + A) * pstate G.

Definition ret {G A} (a : A) : M G A := fun st => (inr a, st).

Definition raise {G A} (e : exn) : M G A := fun st => (inl e, st).

Definition bind {G A B} (c : M G A) (k : A -> M G B) : M G B :=
  fun st =>
    match c st with
    | (inr a, st') => k a st'
    | (inl e, st') => (inl e, st')
    end.

Definition lift {G A} (r : exn + A) : M G A :=
  match r with
  | inr a => ret a
  | inl e => raise e
  end.

Definition emit {G} (ev : event) : M G unit :=
  fun st => (inr tt, {| st_rng := st_rng st; st_trace := st_trace st ++ [ev] |}).

Notation "x <~ c ;; k" := (bind c (fun x => k))
  (at level 100, c at next level, right associativity).
Notation "c ;;; k" := (bind c (fun _ => k))
  (at level 100, right associativity).

(** The same for the pure computations that may raise. *)
Definition ebind {A B} (r : exn + A) (k : A -> exn + B) : exn + B :=
  match r with
  | inr a => k a
  | inl e => inl e
  end.

(** ** List comprehensions *)

(** [[x for x in l if cond(x)]]: the list is built by appending, in
    iteration order. *)
Definition listcomp {A} (cond : A -> bool) (l : list A) : list A :=
  fold_left (fun acc x => if cond x then acc ++ [x] else acc) l [].

(** The loop of lines 51-61: walk [l] and append to the list under
    construction every element that passes [keep] and is not in it yet. *)
Definition collect {A} `{EqDecision A} (keep : A -> bool) (l acc : list A)
  : list A :=
  fold_left
    (fun acc x =>
       if keep x then if bool_decide (x ∉ acc) then acc ++ [x] else acc
       else acc)
    l acc.

(** ** The program *)

Section Program.

Context {G : Type} `{RandomSource G}.

Definition seed (a : Z) : M G unit :=
  fun st => (inr tt, {| st_rng := rs_seed a; st_trace := st_trace st |}).

Definition randbelow (n : nat) : M G nat :=
  fun st =>
    let '(j, g) := rs_randbelow (st_rng st) n in
    (inr j, {| st_rng := g; st_trace := st_trace st |}).

(** [x[i], x[j] = x[j], x[i]] *)
Definition swap {A} (i j : nat) (x : list A) : exn + list A :=
  match x !! j, x !! i with
  | Some xj, Some xi => inr (<[j := xi]> (<[i := xj]> x))
  | _, _ => inl IndexError
  end.

(** [random.shuffle]:
    [for i in reversed(range(1, len(x))): j = randbelow(i + 1); swap]. *)
Fixpoint shuffle_from {A} (i : nat) (x : list A) : M G (list A) :=
  match i with
  | O => ret x
  | S i' =>
      j <~ randbelow (S i) ;;
      x' <~ lift (swap i j x) ;;
      shuffle_from i' x'
  end.

Definition shuffle {A} (x : list A) : M G (list A) :=
  shuffle_from (length x - 1) x.

(** *** Lines 16: the precondition on the ratios *)

Definition tolerance : float := Eval vm_compute in PyFloat.lit 1 1000000.

Definition ratio_sum_ok (train_ratio val_ratio test_ratio : float) : bool :=
  PyFloat.ltb
    (PyFloat.abs
       (PyFloat.sub
          (PyFloat.add (PyFloat.add train_ratio val_ratio) test_ratio)
          PyFloat.one))
    tolerance.

(** *** Lines 30-61: the two strata *)

Definition cat1_annotations (anns : list annotation) : list annotation :=
  listcomp (fun ann => bool_decide (ann_category_id ann = 0)) anns.

Definition cat2_annotations (anns : list annotation) : list annotation :=
  listcomp (fun ann => bool_decide (ann_category_id ann = 1)) anns.

Definition other_annotations (anns : list annotation) : list annotation :=
  listcomp (fun ann => bool_decide (ann_category_id ann ∉ [0; 1])) anns.

Definition cat1_image_ids (anns : list annotation) : gset Z :=
  list_to_set (ann_image_id <$> cat1_annotations anns).

Definition cat2_image_ids (anns : list annotation) : gset Z :=
  list_to_set (ann_image_id <$> cat2_annotations anns).

Definition cat2_images (data : document) : list image :=
  fold_left
    (fun cat2_images _img =>
       if bool_decide (img_id _img ∈ cat2_image_ids (annotations data))
          || bool_decide (img_id _img ∈ cat1_image_ids (annotations data))
       then
         if bool_decide (_img ∉ cat2_images) then cat2_images ++ [_img]
         else cat2_images
       else cat2_images)
    (images data) [].

Definition other_images (data : document) : list image :=
  fold_left
    (fun other_images _img =>
       if bool_decide (_img ∉ cat2_images data) then
         if bool_decide (_img ∉ other_images) then other_images ++ [_img]
         else other_images
       else other_images)
    (images data) [].

(** *** Lines 69-80: [split_list] *)

(** [int(total * r)] *)
Definition scaled_count (total : Z) (r : float) : exn + Z :=
  ebind (PyFloat.of_int total) (fun t => PyFloat.to_int (PyFloat.mul t r)).

Definition split_list (items : list image) (train_r val_r test_r : float)
  : M G (list image * list image * list image) :=
  items <~ shuffle items ;;
  let total := Z.of_nat (length items) in
  train_count <~ lift (scaled_count total train_r) ;;
  val_count <~ lift (scaled_count total val_r) ;;
  let train := py_slice None (Some train_count) items in
  let val := py_slice (Some train_count) (Some (train_count + val_count)) items in
  let test := py_slice (Some (train_count + val_count)) None items in
  ret (train, val, test).

(** *** Lines 93-100: the annotations of a split *)

Definition image_ids (imgs : list image) : gset Z :=
  list_to_set (img_id <$> imgs).

Definition annotations_of (anns : list annotation) (ids : gset Z)
  : list annotation :=
  listcomp (fun ann => bool_decide (ann_image_id ann ∈ ids)) anns.

(** *** Lines 122-130: [create_output_data] *)

Definition create_output_data (data : document)
    (images_subset : list image) (annotations_subset : list annotation)
  : output_data :=
  {| out_images := images_subset;
     out_annotations := annotations_subset;
     out_info := default "{}"%string (info data);
     out_licenses := default "[]"%string (licenses data);
     out_categories := default "[]"%string (categories data) |}.

(** *** Lines 26-135: from the parsed document to the three documents *)

Definition split_data (data : document)
    (train_ratio val_ratio test_ratio : float)
  : M G (output_data * output_data * output_data) :=
  seed 42 ;;;
  cat2 <~ split_list (cat2_images data) train_ratio val_ratio test_ratio ;;
  other <~ split_list (other_images data) train_ratio val_ratio test_ratio ;;
  let '(cat2_train, cat2_val, cat2_test) := cat2 in
  let '(other_train, other_val, other_test) := other in
  let train_images := cat2_train ++ other_train in
  let val_images := cat2_val ++ other_val in
  let test_images := cat2_test ++ other_test in
  let train_image_ids := image_ids train_images in
  let val_image_ids := image_ids val_images in
  let test_image_ids := image_ids test_images in
  let train_annotations := annotations_of (annotations data) train_image_ids in
  let val_annotations := annotations_of (annotations data) val_image_ids in
  let test_annotations := annotations_of (annotations data) test_image_ids in
  ret (create_output_data data train_images train_annotations,
       create_output_data data val_images val_annotations,
       create_output_data data test_images test_annotations).

(** *** Lines 143-164: [save_json] *)

Definition fallback_path (E : env) (file_path : string) : string :=
  Path.join (env_home E) (Path.basename file_path).

Definition save_json (E : env) (data : output_data) (file_path : string)
  : M G bool :=
  match env_write E file_path with
  | WriteOk =>
      emit (EvWrite file_path data) ;;;
      emit (EvPrint (MsgSaved file_path)) ;;;
      ret true
  | WritePermissionError =>
      emit (EvWriteFailed file_path) ;;;
      emit (EvPrint (MsgNoPermission file_path)) ;;;
      emit (EvPrint (MsgTrying (fallback_path E file_path))) ;;;
      match env_write E (fallback_path E file_path) with
      | WriteOk =>
          emit (EvWrite (fallback_path E file_path) data) ;;;
          emit (EvPrint (MsgSavedFallback (fallback_path E file_path))) ;;;
          ret true
      | _ =>
          emit (EvWriteFailed (fallback_path E file_path)) ;;;
          emit (EvPrint MsgFallbackFailed) ;;;
          ret false
      end
  | WriteOtherError =>
      emit (EvWriteFailed file_path) ;;;
      emit (EvPrint MsgSaveFailed) ;;;
      ret false
  end.

(** *** Lines 10-176: the whole run *)

Definition load (E : env) (input_file : string) : M G document :=
  emit (EvRead input_file) ;;;
  match env_read E input_file with
  | ReadOk data => ret data
  | ReadFails e => raise e
  end.

Definition split_coco_json (E : env) (input_file : string)
    (train_ratio val_ratio test_ratio : float)
  : M G (string * string * string) :=
  if negb (ratio_sum_ok train_ratio val_ratio test_ratio)
  then raise AssertionError
  else
    let output_dir := Path.dirname input_file in
    data <~ load E input_file ;;
    outs <~ split_data data train_ratio val_ratio test_ratio ;;
    let '(train_data, val_data, test_data) := outs in
    let train_file := Path.join output_dir "train.json" in
    let val_file := Path.join output_dir "val.json" in
    let test_file := Path.join output_dir "test.json" in
    save_json E train_data train_file ;;;
    save_json E val_data val_file ;;;
    save_json E test_data test_file ;;;
    ret (train_file, val_file, test_file).

End Program.

(** ** A generator to run the model with *)

(** A linear congruential generator. The theorems below hold for every
    [RandomSource]; this one serves to evaluate the program on examples. *)
Definition lcg_next (g : Z) : Z := (g * 1103515245 + 12345) mod 2147483648.

#[program] Instance lcg_source : RandomSource Z := {|
  rs_seed a := a;
  rs_randbelow g n :=
    (Z.to_nat ((lcg_next g / 65536) mod Z.of_nat n), lcg_next g)
|}.
Next Obligation.
  intros g n Hn; simpl.
  pose proof (Z.mod_pos_bound (lcg_next g / 65536) (Z.of_nat n)); lia.
Qed.

(** ** Inputs to run the model on *)

(** A state to start from: some state of the generator, nothing done yet. *)
Definition st0 : pstate Z := {| st_rng := 7; st_trace := [] |}.

Definition mk_img (i : Z) : image := {| img_id := i; img_rest := "" |}.
Definition mk_ann (i c : Z) : annotation :=
  {| ann_image_id := i; ann_category_id := c; ann_rest := "" |}.

(** The scenario of ten images: 1, 2 carry category 0; 3, 4 category 1;
    5..10 category 2. *)
Definition ten_images : document := {|
  images := mk_img <$> [1; 2; 3; 4; 5; 6; 7; 8; 9; 10];
  annotations :=
    [mk_ann 1 0; mk_ann 2 0; mk_ann 3 1; mk_ann 4 1; mk_ann 5 2; mk_ann 6 2;
     mk_ann 7 2; mk_ann 8 2; mk_ann 9 2; mk_ann 10 2];
  info := None; licenses := None; categories := None
|}.

Definition r08 : float := Eval vm_compute in PyFloat.lit 8 10.
Definition r01 : float := Eval vm_compute in PyFloat.lit 1 10.
Definition r005 : float := Eval vm_compute in PyFloat.lit 5 100.

Definition empty_output : output_data :=
  {| out_images := []; out_annotations := []; out_info := "";
     out_licenses := ""; out_categories := "" |}.

(** What the run on the ten images returns with the default ratios. *)
Definition ten_split : output_data * output_data * output_data :=
  Eval vm_compute in
    match (split_data ten_images r08 r01 r01 st0).1 with
    | inr outs => outs
    | inl _ => (empty_output, empty_output, empty_output)
    end.

(** Ratios that pass the check of line 16 although two of them are
    negative: -0.25, -0.25 and 1.5. *)
Definition rm025 : float := Eval vm_compute in PyFloat.lit (-1) 4.
Definition r15 : float := Eval vm_compute in PyFloat.lit 3 2.

(** Ratios that pass the check with train and val at 0.9 each: 0.9, 0.9
    and -0.8. *)
Definition r09 : float := Eval vm_compute in PyFloat.lit 9 10.
Definition rm08 : float := Eval vm_compute in PyFloat.lit (-8) 10.

(** Ratios whose float sum is 1 and whose exact sum is not:
    9007199254740992.0 (that is 2^53), 0.4 and -9007199254740991.0. *)
Definition r2p53 : float := Eval vm_compute in PyFloat.lit 9007199254740992 1.
Definition r04 : float := Eval vm_compute in PyFloat.lit 4 10.
Definition rm2p53 : float :=
  Eval vm_compute in PyFloat.lit (-9007199254740991) 1.

(** Four images, each with one annotation of category 2. *)
Definition four_images : document := {|
  images := mk_img <$> [1; 2; 3; 4];
  annotations := [mk_ann 1 2; mk_ann 2 2; mk_ann 3 2; mk_ann 4 2];
  info := None; licenses := None; categories := None
|}.

Definition four_split : output_data * output_data * output_data :=
  Eval vm_compute in
    match (split_data four_images rm025 rm025 r15 st0).1 with
    | inr outs => outs
    | inl _ => (empty_output, empty_output, empty_output)
    end.

(** The same four records, each of them twice in the input. *)
Definition doubled_images : document := {|
  images := mk_img <$> [1; 1; 2; 2; 3; 3; 4; 4];
  annotations := [];
  info := None; licenses := None; categories := None
|}.

Definition doubled_split : output_data * output_data * output_data :=
  Eval vm_compute in
    match (split_data doubled_images rm025 rm025 r15 st0).1 with
    | inr outs => outs
    | inl _ => (empty_output, empty_output, empty_output)
    end.

(** The doubled input under the default ratios. *)
Definition doubled_default_split
  : output_data * output_data * output_data :=
  Eval vm_compute in
    match (split_data doubled_images r08 r01 r01 st0).1 with
    | inr outs => outs
    | inl _ => (empty_output, empty_output, empty_output)
    end.

(** An environment where [/d/result.json] holds the ten images, the
    directory [/d] refuses [val.json] for lack of permission and fails on
    [test.json] for another reason. *)
Definition env0 : env := {|
  env_read p :=
    if bool_decide (p = "/d/result.json"%string) then ReadOk ten_images
    else ReadFails OSError;
  env_write p :=
    if bool_decide (p = "/d/val.json"%string) then WritePermissionError
    else if bool_decide (p = "/d/test.json"%string) then WriteOtherError
    else WriteOk;
  env_home := "/home/u"
|}.

(** ** Auxiliary definitions for the statements *)

(** A computation only appends to the trace, and does not look at it. *)
Definition framed {G A} (c : M G A) : Prop :=
  forall g t,
    c {| st_rng := g; st_trace := t |}
    = (fst (c {| st_rng := g; st_trace := [] |}),
       {| st_rng := st_rng (snd (c {| st_rng := g; st_trace := [] |}));
          st_trace := t ++ st_trace (snd (c {| st_rng := g; st_trace := [] |})) |}).

(** What [split_list] does to the list once it is shuffled. *)
Definition cut_list (items : list image) (train_r val_r : float)
  : exn + (list image * list image * list image) :=
  let total := Z.of_nat (length items) in
  ebind (scaled_count total train_r) (fun train_count =>
  ebind (scaled_count total val_r) (fun val_count =>
  inr (py_slice None (Some train_count) items,
       py_slice (Some train_count) (Some (train_count + val_count)) items,
       py_slice (Some (train_count + val_count)) None items))).

(** What [split_data] builds from the parts of the two strata. *)
Definition assemble (data : document)
    (cat2 other : list image * list image * list image)
  : output_data * output_data * output_data :=
  let imgs (a b : list image) :=
    create_output_data data (a ++ b)
      (annotations_of (annotations data) (image_ids (a ++ b))) in
  (imgs cat2.1.1 other.1.1, imgs cat2.1.2 other.1.2, imgs cat2.2 other.2).

(** The state right after [random.seed(42)]. *)
Definition seeded {G} `{RandomSource G} (st : pstate G) : pstate G :=
  {| st_rng := rs_seed 42; st_trace := st_trace st |}.

(** The test of line 53: the image is referenced by an annotation of
    category 1 or of category 0. *)
Definition priority (data : document) (img : image) : bool :=
  bool_decide (img_id img ∈ cat2_image_ids (annotations data))
  || bool_decide (img_id img ∈ cat1_image_ids (annotations data)).

(** No annotation of the document points outside its images. *)
Definition references_present (d : output_data) : Prop :=
  forall ann, ann ∈ out_annotations d ->
    exists img, img ∈ out_images d /\ img_id img = ann_image_id ann.

(** The specification of the annotations of a split: [l'] is what is left
    of [l] when the elements that fail [keep] are struck out, the others
    staying where they are. *)
Inductive stable_filter {A} (keep : A -> Prop) : list A -> list A -> Prop :=
  | stable_filter_nil : stable_filter keep [] []
  | stable_filter_keep x l l' :
      keep x -> stable_filter keep l l' ->
      stable_filter keep (x :: l) (x :: l')
  | stable_filter_skip x l l' :
      ~ keep x -> stable_filter keep l l' ->
      stable_filter keep (x :: l) l'.

(** The annotations of [d] are the stable filter of [anns] by the image
    ids of [d]. *)
Definition annotations_projected (anns : list annotation) (d : output_data)
  : Prop :=
  stable_filter (fun ann => ann_image_id ann ∈ image_ids (out_images d))
    anns (out_annotations d).

(** The images of [d] are the list [p] followed by the list [o], where
    every image of [p] passes the test of line 53 and no image of [o]
    does. *)
Definition stratum_order (data : document) (p o : list image)
    (d : output_data) : Prop :=
  out_images d = p ++ o
  /\ Forall (fun img => priority data img = true) p
  /\ Forall (fun img => priority data img = false) o.

(** The paths the program tried to write, the documents it wrote and the
    messages it printed, in order. *)
Definition write_attempts (evs : list event) : list string :=
  omap (fun ev => match ev with
                  | EvWrite p _ | EvWriteFailed p => Some p
                  | _ => None
                  end) evs.

Definition writes (evs : list event) : list (string * output_data) :=
  omap (fun ev => match ev with
                  | EvWrite p d => Some (p, d)
                  | _ => None
                  end) evs.

Definition reports (evs : list event) : list message :=
  omap (fun ev => match ev with
                  | EvPrint m => Some m
                  | _ => None
                  end) evs.

(** The failure policy of the writer in the words of the specification:
    one attempt at the path, and one more at the fallback path after a
    permission error only. *)
Definition attempts_for (E : env) (p : string) : list string :=
  match env_write E p with
  | WritePermissionError => [p; fallback_path E p]
  | _ => [p]
  end.

(** Where the document ends up, if anywhere. *)
Definition landing (E : env) (p : string) : option string :=
  match env_write E p with
  | WriteOk => Some p
  | WritePermissionError =>
      match env_write E (fallback_path E p) with
      | WriteOk => Some (fallback_path E p)
      | _ => None
      end
  | WriteOtherError => None
  end.

Definition landed (E : env) (d : output_data) (p : string)
  : list (string * output_data) :=
  match landing E p with
  | Some q => [(q, d)]
  | None => []
  end.

(** ** The rest of the program *)

(** Lines 103-107, [count_by_category]: a [defaultdict(int)] from category
    to the number of annotations, built by [counts[c] += 1]. *)
Definition count_by_category (anns : list annotation) : gmap Z Z :=
  fold_left
    (fun counts ann =>
       <[ann_category_id ann :=
           default 0 (counts !! ann_category_id ann) + 1]> counts)
    anns ∅.

(** Lines 179-184, the [__main__] block: the input is [result.json] in the
    directory of the script, the ratios are the defaults of line 10. *)
Definition main {G : Type} `{RandomSource G} (E : env) (script : string)
  : M G (string * string * string) :=
  let input_json := Path.join (Path.dirname script) "result.json" in
  split_coco_json E input_json r08 r01 r01.

(** The number of annotations of category [c] that a table of counts
    reports: a category that is not a key counts for none. *)
Definition count_of (counts : gmap Z Z) (c : Z) : Z := default 0 (counts !! c).

(** An annotation whose [image_id] is the [id] of some image of the list. *)
Definition refers_to (imgs : list image) (ann : annotation) : Prop :=
  exists img, img ∈ imgs /\ img_id img = ann_image_id ann.

(** A zero or a finite float. *)
Definition finite_float (x : float) : Prop :=
  match x with
  | S754_zero _ | S754_finite _ _ _ => True
  | _ => False
  end.

(** A path component: no separator in it. *)
Definition sep_free (n : string) : Prop :=
  Path.sep ∉ list_ascii_of_string n.

(** The names of the three output files. *)
Definition output_names : list string :=
  ["train.json"; "val.json"; "test.json"]%string.

(** What the run on the four images returns with the default ratios. *)
Definition four_default_split : output_data * output_data * output_data :=
  Eval vm_compute in
    match (split_data four_images r08 r01 r01 st0).1 with
    | inr outs => outs
    | inl _ => (empty_output, empty_output, empty_output)
    end.

(** Closed decidable facts, by evaluation. *)
Ltac decide_by_compute :=
  match goal with
  | |- ?P => apply (bool_decide_unpack P); vm_compute; exact I
  end.

(** * Properties *)

(** ** Comprehensions and the collecting loop *)

Lemma fold_append_filter {A} (cond : A -> bool) (l acc : list A) :
  fold_left (fun acc x => if cond x then acc ++ [x] else acc) l acc
  = acc ++ filter (fun x => Is_true (cond x)) l.
Proof.
  revert acc; induction l as [|a l IH]; intros acc; simpl.
  - by rewrite app_nil_r.
  - rewrite IH. destruct (cond a) eqn:Ca.
    + rewrite filter_cons_True by (rewrite Ca; exact I). by rewrite <- app_assoc.
    + rewrite filter_cons_False by (rewrite Ca; exact id). done.
Qed.

Lemma listcomp_filter {A} (cond : A -> bool) (l : list A) :
  listcomp cond l = filter (fun x => Is_true (cond x)) l.
Proof. unfold listcomp. by rewrite fold_append_filter. Qed.

Lemma elem_of_listcomp {A} (cond : A -> bool) (l : list A) x :
  x ∈ listcomp cond l <-> cond x = true /\ x ∈ l.
Proof.
  rewrite listcomp_filter, list_elem_of_filter.
  by rewrite Is_true_true.
Qed.

Section Collect.

Context {A : Type} `{EqDecision A} (keep : A -> bool).

Lemma collect_cons x l acc :
  collect keep (x :: l) acc
  = collect keep l
      (if keep x then if bool_decide (x ∉ acc) then acc ++ [x] else acc
       else acc).
Proof. reflexivity. Qed.

Lemma elem_of_collect l acc x :
  x ∈ collect keep l acc <-> x ∈ acc \/ (x ∈ l /\ keep x = true).
Proof.
  revert acc; induction l as [|a l IH]; intros acc.
  - simpl. rewrite elem_of_nil. tauto.
  - rewrite collect_cons, IH, elem_of_cons.
    destruct (keep a) eqn:Ka.
    + case_bool_decide as Hin.
      * rewrite elem_of_app, list_elem_of_singleton.
        split; [intros [[?| ->]|[? ?]]|intros [?|[[ ->|?] ?]]]; tauto.
      * split; [intros [?|[? ?]]|intros [?|[[ ->|?] ?]]]; tauto.
    + split; [intros [?|[? ?]]|intros [?|[[ ->|?] ?]]]; try tauto.
      congruence.
Qed.

Lemma NoDup_collect l acc : NoDup acc -> NoDup (collect keep l acc).
Proof.
  revert acc; induction l as [|a l IH]; intros acc Hacc; [done|].
  rewrite collect_cons. apply IH.
  destruct (keep a); [|done].
  case_bool_decide as Hin; [|done].
  apply NoDup_app; split_and!; [done| |apply NoDup_singleton].
  intros y Hy ->%list_elem_of_singleton. done.
Qed.

(** On a list without repetition the loop is a plain filter. *)
Lemma collect_NoDup_filter l acc :
  NoDup l -> (forall x, x ∈ l -> x ∉ acc) ->
  collect keep l acc = acc ++ filter (fun x => Is_true (keep x)) l.
Proof.
  revert acc; induction l as [|a l IH]; intros acc Hl Hacc.
  - simpl. by rewrite app_nil_r.
  - apply NoDup_cons in Hl as [Ha Hl].
    rewrite collect_cons.
    destruct (keep a) eqn:Ka; simpl.
    + rewrite bool_decide_eq_true_2 by (apply Hacc; left).
      rewrite filter_cons_True by (rewrite Ka; exact I).
      rewrite IH, <- app_assoc; [done|done|].
      intros x Hx [Hx'| ->%list_elem_of_singleton]%elem_of_app; [|done].
      by apply (Hacc x); [right|].
    + rewrite filter_cons_False by (rewrite Ka; exact id).
      apply IH; [done|]. intros x Hx. apply Hacc. by right.
Qed.

End Collect.

(** ** Slices *)

Section Slices.

Context {A : Type}.
Implicit Types l : list A.

Lemma py_slice_sublist lo hi l : py_slice lo hi l `sublist_of` l.
Proof.
  unfold py_slice. etrans; [apply sublist_take|apply sublist_drop].
Qed.

Lemma py_slice_prefix l (n : Z) :
  0 <= n -> py_slice None (Some n) l = take (Z.to_nat n) l.
Proof.
  intros Hn. unfold py_slice, slice_index; simpl.
  destruct (Z.ltb_spec n 0); [lia|].
  rewrite (Z.min_l 0) by lia. rewrite Z.sub_0_r.
  change (Z.to_nat 0) with 0%nat. rewrite drop_0.
  destruct (Z.le_gt_cases n (Z.of_nat (length l))).
  - by rewrite Z.min_l.
  - rewrite Z.min_r, Nat2Z.id by lia.
    rewrite (take_ge l (length l)) by lia.
    rewrite (take_ge l (Z.to_nat n)) by lia. done.
Qed.

Lemma py_slice_middle l (n k : Z) :
  0 <= n -> 0 <= k ->
  py_slice (Some n) (Some (n + k)) l
  = take (Z.to_nat k) (drop (Z.to_nat n) l).
Proof.
  intros Hn Hk. unfold py_slice, slice_index; simpl.
  destruct (Z.ltb_spec n 0); [lia|].
  destruct (Z.ltb_spec (n + k) 0); [lia|].
  destruct (Z.le_gt_cases (Z.of_nat (length l)) n) as [Hge|Hlt].
  - rewrite !drop_ge by lia. by rewrite !take_nil.
  - rewrite (Z.min_l n) by lia.
    destruct (Z.le_gt_cases (n + k) (Z.of_nat (length l))).
    + rewrite Z.min_l by lia. f_equal; lia.
    + rewrite Z.min_r by lia.
      rewrite (take_ge _ (Z.to_nat k)) by (rewrite length_drop; lia).
      rewrite take_ge by (rewrite length_drop; lia). done.
Qed.

Lemma py_slice_suffix l (n : Z) :
  0 <= n -> py_slice (Some n) None l = drop (Z.to_nat n) l.
Proof.
  intros Hn. unfold py_slice, slice_index; simpl.
  destruct (Z.ltb_spec n 0); [lia|].
  destruct (Z.ltb_spec (Z.of_nat (length l)) 0); [lia|].
  rewrite Z.min_id.
  destruct (Z.le_gt_cases (Z.of_nat (length l)) n) as [Hge|Hlt].
  - rewrite !drop_ge by lia. by rewrite take_nil.
  - rewrite Z.min_l by lia. rewrite take_ge; [done|]. rewrite length_drop; lia.
Qed.

(** With non-negative counts the three slices of [split_list] cut the
    list into consecutive pieces. *)
Lemma slices_partition l (n k : Z) :
  0 <= n -> 0 <= k ->
  py_slice None (Some n) l ++ py_slice (Some n) (Some (n + k)) l
    ++ py_slice (Some (n + k)) None l = l.
Proof.
  intros Hn Hk.
  rewrite py_slice_prefix, py_slice_middle, py_slice_suffix by lia.
  rewrite app_assoc, take_take_drop, Z2Nat.inj_add by lia.
  apply take_drop.
Qed.

End Slices.

(** ** Swapping two cells permutes the list *)

Lemma insert_cons_swap {A} (l : list A) (j : nat) (a b : A) :
  l !! j = Some b -> b :: <[j := a]> l ≡ₚ a :: l.
Proof.
  revert j; induction l as [|c l IH]; intros [|j] Hj; simplify_eq/=.
  - apply perm_swap.
  - etrans; [apply perm_swap|]. etrans; [|apply perm_swap].
    apply perm_skip. by apply IH.
Qed.

Lemma insert_swap_lt {A} (l : list A) (i j : nat) (a b : A) :
  (i < j)%nat -> l !! i = Some a -> l !! j = Some b ->
  <[j := a]> (<[i := b]> l) ≡ₚ l.
Proof.
  revert i j; induction l as [|c l IH]; intros i j Hij Hi Hj; [done|].
  destruct j as [|j]; [lia|]. destruct i as [|i]; simplify_eq/=.
  - by apply insert_cons_swap.
  - apply perm_skip. apply IH; [lia|done|done].
Qed.

Lemma insert_swap_perm {A} (l : list A) (i j : nat) (a b : A) :
  l !! i = Some a -> l !! j = Some b ->
  <[j := a]> (<[i := b]> l) ≡ₚ l.
Proof.
  intros Hi Hj. destruct (lt_eq_lt_dec i j) as [[Hlt| ->]|Hgt].
  - by apply insert_swap_lt.
  - rewrite Hi in Hj. injection Hj as ->.
    rewrite (list_insert_id l j b) by done. by rewrite list_insert_id.
  - rewrite list_insert_insert_ne by lia. by apply insert_swap_lt.
Qed.

(** ** The shuffle returns a permutation *)

Section Shuffle.

Context {G : Type} `{RandomSource G} {A : Type}.
Implicit Types x : list A.

Lemma swap_ok (i j : nat) x :
  (i < length x)%nat -> (j < length x)%nat ->
  exists x', swap i j x = inr x' /\ x ≡ₚ x' /\ length x' = length x.
Proof.
  intros Hi Hj. unfold swap.
  destruct (lookup_lt_is_Some_2 x i Hi) as [xi Hxi].
  destruct (lookup_lt_is_Some_2 x j Hj) as [xj Hxj].
  rewrite Hxi, Hxj. eexists; split_and!; [done| |].
  - symmetry. by apply insert_swap_perm.
  - by rewrite !length_insert.
Qed.

Lemma randbelow_run (n : nat) (st : pstate G) :
  (0 < n)%nat ->
  exists j g, (j < n)%nat /\
    randbelow n st = (inr j, {| st_rng := g; st_trace := st_trace st |}).
Proof.
  intros Hn. unfold randbelow.
  pose proof (rs_randbelow_lt (st_rng st) n Hn) as Hlt.
  destruct (rs_randbelow (st_rng st) n) as [j g]. by exists j, g.
Qed.

Lemma shuffle_from_ok (i : nat) x (st : pstate G) :
  (i = 0 \/ i < length x)%nat ->
  exists x' g,
    shuffle_from i x st
    = (inr x', {| st_rng := g; st_trace := st_trace st |})
    /\ x ≡ₚ x'.
Proof.
  revert x st; induction i as [|i IH]; intros x st Hi.
  - exists x, (st_rng st). by destruct st.
  - destruct Hi as [?|Hi]; [lia|].
    destruct (randbelow_run (S (S i)) st) as (j & g & Hj & Hrun); [lia|].
    destruct (swap_ok (S i) j x) as (x1 & Hswap & Hperm & Hlen); [lia|lia|].
    destruct (IH x1 {| st_rng := g; st_trace := st_trace st |})
      as (x' & g' & Hrec & Hperm'); [right; lia|].
    exists x', g'. split; [|by etrans].
    simpl. unfold bind at 1. rewrite Hrun.
    unfold bind at 1. rewrite Hswap. simpl. exact Hrec.
Qed.

(** [random.shuffle] neither raises nor touches anything but the
    generator, and leaves a permutation of the list. *)
Lemma shuffle_ok x (st : pstate G) :
  exists x' g,
    shuffle x st = (inr x', {| st_rng := g; st_trace := st_trace st |})
    /\ x ≡ₚ x'.
Proof.
  apply shuffle_from_ok. destruct x; simpl; [by left|right; lia].
Qed.

End Shuffle.

(** ** Floats: signs and truncation *)

Module PyFloatFacts.

Import PyFloat.

Lemma binary_round_aux_not_negative mx ex lx :
  not_negative (binary_round_aux prec emax false mx ex lx).
Proof.
  unfold binary_round_aux.
  destruct (shr_fexp prec emax mx ex lx) as [mrs' e'].
  destruct (shr_fexp prec emax _ e' loc_Exact) as [mrs'' e''].
  destruct (shr_m mrs''); simpl; [done| |done].
  by destruct (e'' <=? emax - prec).
Qed.

Lemma round_Z_not_negative (z : Z) : 0 <= z -> not_negative (round_Z z).
Proof.
  intros Hz. destruct z as [|m|m]; [done| |lia].
  unfold round_Z, binary_normalize, binary_round.
  destruct (shl_align _ _ _) as [mz ez].
  apply binary_round_aux_not_negative.
Qed.

Lemma of_int_not_negative (z : Z) t :
  0 <= z -> of_int z = inr t -> not_negative t.
Proof.
  intros Hz. unfold of_int.
  pose proof (round_Z_not_negative z Hz) as Hnn.
  destruct (round_Z z); intros ?; by simplify_eq.
Qed.

Lemma mul_not_negative (t r : float) :
  not_negative t -> nonneg r = true -> not_negative (mul t r).
Proof.
  intros Ht Hr.
  destruct t as [st|st| |[] mt et]; destruct r as [sr|sr| |[] mr er];
    try done; simpl in *; try (by destruct st); try (by destruct sr).
  apply binary_round_aux_not_negative.
Qed.

Lemma to_int_not_negative (x : float) z :
  not_negative x -> to_int x = inr z -> 0 <= z.
Proof.
  destruct x as [s|s| |[] m e]; simpl; intros Hx Hz; simplify_eq; try done.
  destruct e as [|e|k]; [lia|lia|].
  apply Z.div_pos; lia.
Qed.

(** On a float that is not negative, [int] is the floor of the exact
    value. *)
Lemma to_int_floor (x : float) z :
  not_negative x -> to_int x = inr z -> Qfloor (to_Q x) = z.
Proof.
  destruct x as [s|s| |[] m e]; simpl; intros Hx Hz; simplify_eq; try done.
  destruct e as [|e|k].
  - apply Qfloor_Z.
  - apply Qfloor_Z.
  - simpl. by rewrite Pos2Z.inj_pow.
Qed.

(** *** No overflow on ordinary operands *)

Lemma digits2_pos_lt (p : positive) : Z.pos p < 2 ^ Z.pos (digits2_pos p).
Proof.
  induction p as [p IH|p IH|]; simpl digits2_pos.
  - rewrite Pos2Z.inj_succ, Z.pow_succ_r by lia. lia.
  - rewrite Pos2Z.inj_succ, Z.pow_succ_r by lia. lia.
  - done.
Qed.

Lemma digits2_pos_le (p : positive) (k : Z) :
  Z.pos p < 2 ^ k -> Z.pos (digits2_pos p) <= k.
Proof.
  revert k; induction p as [p IH|p IH|]; intros k Hk; simpl digits2_pos.
  - destruct (Z.le_gt_cases k 0) as [Hk0|Hk0].
    { assert (2 ^ k <= 2 ^ 0) by (apply Z.pow_le_mono_r; lia). simpl in *. lia. }
    rewrite Pos2Z.inj_succ. specialize (IH (k - 1)).
    replace k with (Z.succ (k - 1)) in Hk by lia.
    rewrite Z.pow_succ_r in Hk by lia. lia.
  - destruct (Z.le_gt_cases k 0) as [Hk0|Hk0].
    { assert (2 ^ k <= 2 ^ 0) by (apply Z.pow_le_mono_r; lia). simpl in *. lia. }
    rewrite Pos2Z.inj_succ. specialize (IH (k - 1)).
    replace k with (Z.succ (k - 1)) in Hk by lia.
    rewrite Z.pow_succ_r in Hk by lia. lia.
  - destruct (Z.le_gt_cases k 0) as [Hk0|Hk0]; [|lia].
    assert (2 ^ k <= 2 ^ 0) by (apply Z.pow_le_mono_r; lia). simpl in *. lia.
Qed.

Lemma shr_1_m (mrs : shr_record) :
  0 <= shr_m mrs -> shr_m (shr_1 mrs) = shr_m mrs / 2.
Proof.
  destruct mrs as [m r s]; simpl. intros Hm.
  destruct m as [|[p|p|]|p]; simpl; try done; try lia.
  - rewrite Pos2Z.inj_xI. apply (Z.div_unique _ _ _ 1); lia.
  - rewrite Pos2Z.inj_xO. apply (Z.div_unique _ _ _ 0); lia.
Qed.

Lemma iter_shr_1_m (p : positive) (mrs : shr_record) :
  0 <= shr_m mrs ->
  shr_m (SpecFloat.iter_pos shr_1 p mrs) = shr_m mrs / 2 ^ Z.pos p.
Proof.
  revert mrs; induction p as [p IH|p IH|]; intros mrs Hm; simpl SpecFloat.iter_pos.
  - assert (0 <= shr_m (shr_1 mrs)) by (rewrite shr_1_m by done; apply Z.div_pos; lia).
    assert (0 <= shr_m (SpecFloat.iter_pos shr_1 p (shr_1 mrs)))
      by (rewrite IH by done; apply Z.div_pos; lia).
    rewrite !IH, shr_1_m by done.
    rewrite !Z.div_div by lia. f_equal.
    replace (Z.pos p~1) with (1 + Z.pos p + Z.pos p) by lia.
    rewrite !Z.pow_add_r by lia. change (2 ^ 1) with 2. ring.
  - assert (0 <= shr_m (SpecFloat.iter_pos shr_1 p mrs))
      by (rewrite IH by done; apply Z.div_pos; lia).
    rewrite !IH by done.
    rewrite !Z.div_div by lia. f_equal.
    replace (Z.pos p~0) with (Z.pos p + Z.pos p) by lia.
    rewrite !Z.pow_add_r by lia. ring.
  - rewrite shr_1_m by done. done.
Qed.

Lemma Zdigits2_lt (m : Z) : 0 <= m -> m < 2 ^ Zdigits2 m.
Proof.
  destruct m as [|p|p]; simpl; [done| |lia]. intros _. apply digits2_pos_lt.
Qed.

Lemma Zdigits2_nonneg (m : Z) : 0 <= Zdigits2 m.
Proof. destruct m; simpl; lia. Qed.

Lemma Zdigits2_le (m k : Z) : 0 <= m -> 0 <= k -> m < 2 ^ k -> Zdigits2 m <= k.
Proof.
  destruct m as [|p|p]; simpl; [done| |lia]. intros _ _. apply digits2_pos_le.
Qed.

Lemma Zdigits2_div (m k : Z) :
  0 <= m -> 0 <= k -> Zdigits2 (m / 2 ^ k) <= Z.max 0 (Zdigits2 m - k).
Proof.
  intros Hm Hk. pose proof (Zdigits2_lt m Hm) as Hlt.
  assert (0 < 2 ^ k) by (apply Z.pow_pos_nonneg; lia).
  destruct (Z.le_gt_cases k (Zdigits2 m)) as [Hle|Hgt].
  - rewrite Z.max_r by lia. apply Zdigits2_le; [apply Z.div_pos; lia|lia|].
    apply Z.div_lt_upper_bound; [lia|].
    rewrite <- Z.pow_add_r by lia. by replace (k + (Zdigits2 m - k)) with (Zdigits2 m) by lia.
  - rewrite Z.div_small; [simpl; lia|]. split; [done|].
    eapply Z.lt_le_trans; [exact Hlt|]. apply Z.pow_le_mono_r; lia.
Qed.

Lemma Zdigits2_succ (m m1 : Z) :
  0 <= m -> 0 <= m1 <= m + 1 -> Zdigits2 m1 <= Zdigits2 m + 1.
Proof.
  intros Hm Hm1. pose proof (Zdigits2_lt m Hm). pose proof (Zdigits2_nonneg m).
  apply Zdigits2_le; [lia|lia|].
  rewrite Z.pow_add_r by lia. change (2 ^ 1) with 2. lia.
Qed.

Lemma round_nearest_even_bounds (m : Z) (l : location) :
  m <= round_nearest_even m l <= m + 1.
Proof.
  unfold round_nearest_even. destruct l as [|[]]; try destruct (Z.even m); lia.
Qed.

Lemma shr_m_of_loc (m : Z) (l : location) : shr_m (shr_record_of_loc m l) = m.
Proof. by destruct l as [|[]]. Qed.

Lemma shr_fexp_spec (m e : Z) (l : location) :
  0 <= m ->
  exists mrs e1,
    shr_fexp prec emax m e l = (mrs, e1)
    /\ e1 = Z.max e (fexp prec emax (Zdigits2 m + e))
    /\ shr_m mrs = m / 2 ^ (e1 - e)
    /\ (e1 = e -> mrs = shr_record_of_loc m l).
Proof.
  intros Hm. unfold shr_fexp, shr.
  destruct (fexp prec emax (Zdigits2 m + e) - e) as [|q|q] eqn:Hn.
  - eexists _, _. split_and!; [done|lia| |done].
    rewrite Z.sub_diag, shr_m_of_loc. by rewrite Z.div_1_r.
  - eexists _, _. split_and!; [done|lia| |lia].
    rewrite iter_shr_1_m by (rewrite shr_m_of_loc; done).
    rewrite shr_m_of_loc. f_equal. f_equal. lia.
  - eexists _, _. split_and!; [done|lia| |done].
    rewrite Z.sub_diag, shr_m_of_loc. by rewrite Z.div_1_r.
Qed.

Lemma binary_round_aux_below (s : bool) (p : positive) (ex b : Z) :
  ex <= 971 -> Z.pos (digits2_pos p) + ex <= b -> -1074 <= b -> b <= 1023 ->
  below (b + 1) (Z.max ex (Z.max (b - 52) (-1074)))
    (binary_round_aux prec emax s (Z.pos p) ex loc_Exact).
Proof.
  intros Hex Hb Hb0 Hb1. unfold binary_round_aux.
  destruct (shr_fexp_spec (Z.pos p) ex loc_Exact) as (mrs' & e' & -> & He' & Hm' & Hsame); [lia|].
  remember (round_nearest_even (shr_m mrs') (loc_of_shr_record mrs')) as m1
    eqn:Hm1def.
  assert (0 <= shr_m mrs') as Hm'0 by (rewrite Hm'; apply Z.div_pos; [lia|apply Z.pow_pos_nonneg; lia]).
  pose proof (round_nearest_even_bounds (shr_m mrs') (loc_of_shr_record mrs')) as Hm1.
  rewrite <- Hm1def in Hm1.
  destruct (shr_fexp_spec m1 e' loc_Exact) as (mrs'' & e'' & -> & He'' & Hm'' & _); [lia|].
  assert (0 <= shr_m mrs'') as Hm''0 by (rewrite Hm''; apply Z.div_pos; [lia|apply Z.pow_pos_nonneg; lia]).
  unfold fexp, emin, prec, emax in *. simpl Zdigits2 in He'.
  assert (Zdigits2 (shr_m mrs') <= Z.max 0 (Z.pos (digits2_pos p) - (e' - ex))) as Hd'.
  { rewrite Hm'. apply (Zdigits2_div (Z.pos p)); lia. }
  assert (Zdigits2 m1 <= Zdigits2 (shr_m mrs') + 1) as Hd1 by (apply Zdigits2_succ; lia).
  assert (Zdigits2 m1 + e' <= b + 1) as Hmag1.
  { destruct (decide (e' = ex)) as [Heq|Hne].
    - rewrite (Hsame Heq) in Hm1def. simpl in Hm1def. subst m1. simpl. lia.
    - lia. }
  assert (Zdigits2 (shr_m mrs'') <= Z.max 0 (Zdigits2 m1 - (e'' - e'))) as Hd''.
  { rewrite Hm''. apply Zdigits2_div; lia. }
  destruct (shr_m mrs'') as [|m|m] eqn:Hsm; simpl; [done| |lia].
  simpl in Hd''.
  destruct (Z.leb_spec e'' (1024 - 53)); simpl; [|lia].
  split; lia.
Qed.

Lemma digits2_pos_iter_xO (m d : positive) :
  Z.pos (digits2_pos (Pos.iter xO m d)) = Z.pos (digits2_pos m) + Z.pos d.
Proof.
  induction d as [|d IH] using Pos.peano_ind.
  - simpl. lia.
  - rewrite Pos.iter_succ. simpl digits2_pos. lia.
Qed.

Lemma round_Z_below (total : Z) :
  0 <= total < 2 ^ 53 ->
  below 54 1 (round_Z total).
Proof.
  intros [H0 Hlt]. destruct total as [|m|m]; [done| |lia].
  unfold round_Z, binary_normalize, binary_round.
  pose proof (digits2_pos_le m 53 Hlt) as Hd.
  destruct (shl_align m 0 _) as [mz ez] eqn:Hal.
  assert (Z.pos (digits2_pos mz) + ez = Z.pos (digits2_pos m) /\ ez <= 0) as [Hmag Hez].
  { unfold shl_align in Hal.
    destruct (fexp prec emax (Z.pos (digits2_pos m) + 0) - 0) as [|d|d] eqn:Hd';
      injection Hal as <- <-; [lia|lia|].
    rewrite digits2_pos_iter_xO. unfold fexp, emin, prec, emax in *. lia. }
  assert (below (53 + 1) (Z.max ez (Z.max (53 - 52) (-1074)))
            (binary_round_aux prec emax false (Z.pos mz) ez loc_Exact)) as Hb
    by (apply binary_round_aux_below; lia).
  destruct (binary_round_aux _ _ _ _ _ _); simpl in *; try done. lia.
Qed.

Lemma digits2_pos_mul (a b : positive) :
  Z.pos (digits2_pos (a * b)) <= Z.pos (digits2_pos a) + Z.pos (digits2_pos b).
Proof.
  apply digits2_pos_le. rewrite Pos2Z.inj_mul, Z.pow_add_r by lia.
  pose proof (digits2_pos_lt a). pose proof (digits2_pos_lt b). nia.
Qed.

Lemma mul_below (t r : float) :
  below 54 1 t -> below 969 970 r -> below 1024 971 (mul t r).
Proof.
  destruct t as [st|st| |st mt et]; destruct r as [sr|sr| |sr mr er];
    simpl; try done.
  intros [Ht1 Ht2] [Hr1 Hr2].
  pose proof (digits2_pos_mul mt mr) as Hd.
  assert (below (1023 + 1) (Z.max (et + er) (Z.max (1023 - 52) (-1074)))
            (binary_round_aux prec emax (xorb st sr) (Z.pos (mt * mr)) (et + er) loc_Exact)) as Hb
    by (apply binary_round_aux_below; lia).
  destruct (binary_round_aux _ _ _ _ _ _); simpl in *; try done. lia.
Qed.

End PyFloatFacts.

(** ** The monad: computations only append to the trace *)

Section Framed.

Context {G : Type}.

Lemma framed_ret {A} (a : A) : framed (ret (G:=G) a).
Proof. intros g t; simpl. by rewrite app_nil_r. Qed.

Lemma framed_raise {A} (e : exn) : framed (raise (G:=G) (A:=A) e).
Proof. intros g t; simpl. by rewrite app_nil_r. Qed.

Lemma framed_lift {A} (r : exn + A) : framed (lift (G:=G) r).
Proof. destruct r; [apply framed_raise|apply framed_ret]. Qed.

Lemma framed_emit (ev : event) : framed (emit (G:=G) ev).
Proof. intros g t; reflexivity. Qed.

Lemma framed_bind {A B} (c : M G A) (k : A -> M G B) :
  framed c -> (forall a, framed (k a)) -> framed (bind c k).
Proof.
  intros Hc Hk g t. unfold bind. rewrite (Hc g t).
  destruct (c {| st_rng := g; st_trace := [] |}) as [[e|a] [g' evs]]; simpl.
  - done.
  - rewrite (Hk a g' (t ++ evs)), (Hk a g' evs); simpl.
    by rewrite app_assoc.
Qed.

End Framed.

Section ProgramFacts.

Context {G : Type} `{RandomSource G}.

Lemma framed_seed (a : Z) : framed (seed a).
Proof. intros g t; simpl. by rewrite app_nil_r. Qed.

Lemma framed_randbelow (n : nat) : framed (randbelow n).
Proof.
  intros g t; unfold randbelow; simpl.
  destruct (rs_randbelow g n); simpl. by rewrite app_nil_r.
Qed.

Lemma framed_shuffle_from {A} (i : nat) (x : list A) :
  framed (shuffle_from i x).
Proof.
  revert x; induction i as [|i IH]; intros x; simpl.
  - apply framed_ret.
  - apply framed_bind; [apply framed_randbelow|intros j].
    apply framed_bind; [apply framed_lift|intros x']. apply IH.
Qed.

Lemma framed_split_list items tr vr te : framed (split_list items tr vr te).
Proof.
  unfold split_list, shuffle.
  apply framed_bind; [apply framed_shuffle_from|intros ?].
  apply framed_bind; [apply framed_lift|intros ?].
  apply framed_bind; [apply framed_lift|intros ?]. apply framed_ret.
Qed.

Lemma framed_split_data data tr vr te : framed (split_data data tr vr te).
Proof.
  unfold split_data.
  apply framed_bind; [apply framed_seed|intros _].
  apply framed_bind; [apply framed_split_list|intros [[? ?] ?]].
  apply framed_bind; [apply framed_split_list|intros [[? ?] ?]].
  apply framed_ret.
Qed.

Lemma framed_save_json E data file_path :
  framed (G:=G) (save_json E data file_path).
Proof.
  unfold save_json.
  destruct (env_write E file_path);
    [| destruct (env_write E (fallback_path E file_path)) |];
    repeat (apply framed_bind; [apply framed_emit|intros _]);
    apply framed_ret.
Qed.

Lemma framed_load E input_file : framed (G:=G) (load E input_file).
Proof.
  unfold load. apply framed_bind; [apply framed_emit|intros _].
  destruct (env_read E input_file); [apply framed_ret|apply framed_raise].
Qed.

Lemma framed_split_coco_json E input_file tr vr te :
  framed (split_coco_json E input_file tr vr te).
Proof.
  unfold split_coco_json.
  destruct (negb _); [apply framed_raise|].
  apply framed_bind; [apply framed_load|intros data].
  apply framed_bind; [apply framed_split_data|intros [[? ?] ?]].
  repeat (apply framed_bind; [apply framed_save_json|intros _]).
  apply framed_ret.
Qed.

(** *** What a run of [split_list] and of [split_data] is *)

Lemma split_list_run items tr vr te (st : pstate G) :
  exists sh g,
    shuffle items st = (inr sh, {| st_rng := g; st_trace := st_trace st |})
    /\ items ≡ₚ sh
    /\ split_list items tr vr te st
       = (cut_list sh tr vr, {| st_rng := g; st_trace := st_trace st |}).
Proof.
  destruct (shuffle_ok items st) as (sh & g & Hsh & Hperm).
  exists sh, g. split_and!; [done..|].
  unfold split_list, cut_list. unfold bind at 1. rewrite Hsh.
  unfold bind, lift, ebind.
  destruct (scaled_count _ tr) as [e|tc]; [done|].
  by destruct (scaled_count _ vr) as [e|vc].
Qed.

Lemma split_data_run data tr vr te (st : pstate G) :
  exists sh2 sho g1 g2,
    shuffle (cat2_images data) (seeded st)
    = (inr sh2, {| st_rng := g1; st_trace := st_trace st |})
    /\ cat2_images data ≡ₚ sh2
    /\ shuffle (other_images data)
         {| st_rng := g1; st_trace := st_trace st |}
       = (inr sho, {| st_rng := g2; st_trace := st_trace st |})
    /\ other_images data ≡ₚ sho
    /\ split_data data tr vr te st
       = match cut_list sh2 tr vr with
         | inl e => (inl e, {| st_rng := g1; st_trace := st_trace st |})
         | inr cat2 =>
             match cut_list sho tr vr with
             | inl e => (inl e, {| st_rng := g2; st_trace := st_trace st |})
             | inr other =>
                 (inr (assemble data cat2 other),
                  {| st_rng := g2; st_trace := st_trace st |})
             end
         end.
Proof.
  destruct (split_list_run (cat2_images data) tr vr te (seeded st))
    as (sh2 & g1 & Hsh2 & Hp2 & Hrun2).
  destruct (split_list_run (other_images data) tr vr te
              {| st_rng := g1; st_trace := st_trace st |})
    as (sho & g2 & Hsho & Hpo & Hruno).
  exists sh2, sho, g1, g2. split_and!; [done..|].
  unfold split_data. unfold bind at 1. simpl.
  unfold bind at 1. fold (seeded st). rewrite Hrun2. simpl.
  destruct (cut_list sh2 tr vr) as [e|[[a b] c]]; [done|].
  unfold bind at 1. rewrite Hruno.
  by destruct (cut_list sho tr vr) as [e|[[a' b'] c']].
Qed.

End ProgramFacts.

(** ** The two strata *)

Section Strata.

Variable data : document.

Lemma cat2_images_collect :
  cat2_images data = collect (priority data) (images data) [].
Proof. reflexivity. Qed.

Lemma other_images_collect :
  other_images data
  = collect (fun img => bool_decide (img ∉ cat2_images data))
      (images data) [].
Proof. reflexivity. Qed.

Lemma elem_of_cat2_images img :
  img ∈ cat2_images data <-> img ∈ images data /\ priority data img = true.
Proof.
  rewrite cat2_images_collect, elem_of_collect, elem_of_nil. tauto.
Qed.

Lemma elem_of_other_images img :
  img ∈ other_images data <-> img ∈ images data /\ priority data img = false.
Proof.
  rewrite other_images_collect, elem_of_collect, elem_of_nil.
  rewrite bool_decide_eq_true, elem_of_cat2_images.
  destruct (priority data img); naive_solver.
Qed.

Lemma NoDup_cat2_images : NoDup (cat2_images data).
Proof. rewrite cat2_images_collect. apply NoDup_collect, NoDup_nil_2. Qed.

Lemma NoDup_other_images : NoDup (other_images data).
Proof. rewrite other_images_collect. apply NoDup_collect, NoDup_nil_2. Qed.

(** Every record of the input is in exactly one stratum, exactly once. *)
Lemma NoDup_strata : NoDup (cat2_images data ++ other_images data).
Proof.
  apply NoDup_app. split_and!;
    [apply NoDup_cat2_images| |apply NoDup_other_images].
  intros img [_ Hp]%elem_of_cat2_images [_ Hn]%elem_of_other_images.
  congruence.
Qed.

Lemma elem_of_strata img :
  img ∈ cat2_images data ++ other_images data <-> img ∈ images data.
Proof.
  rewrite elem_of_app, elem_of_cat2_images, elem_of_other_images.
  destruct (priority data img); naive_solver.
Qed.

(** Without repeated records the strata hold the images of the input. *)
Lemma strata_Permutation :
  NoDup (images data) ->
  cat2_images data ++ other_images data ≡ₚ images data.
Proof.
  intros Hnd. apply NoDup_Permutation;
    [apply NoDup_strata|done|apply elem_of_strata].
Qed.

(** The test of line 53 in the words of the specification. *)
Lemma priority_spec img :
  priority data img = true <->
  exists ann, ann ∈ annotations data /\ ann_image_id ann = img_id img
              /\ (ann_category_id ann = 0 \/ ann_category_id ann = 1).
Proof.
  unfold priority, cat1_image_ids, cat2_image_ids,
    cat1_annotations, cat2_annotations.
  rewrite orb_true_iff, !bool_decide_eq_true, !elem_of_list_to_set,
    !list_elem_of_fmap.
  setoid_rewrite elem_of_listcomp. setoid_rewrite bool_decide_eq_true.
  naive_solver.
Qed.

End Strata.

(** ** Stable filters *)

Lemma listcomp_stable {A} (cond : A -> bool) (keep : A -> Prop) (l : list A) :
  (forall x, cond x = true <-> keep x) ->
  stable_filter keep l (listcomp cond l).
Proof.
  intros Hk. rewrite listcomp_filter.
  induction l as [|a l IH]; [constructor|].
  destruct (cond a) eqn:Ca.
  - rewrite filter_cons_True by (rewrite Ca; exact I).
    constructor; [by apply Hk|done].
  - rewrite filter_cons_False by (rewrite Ca; exact id).
    constructor; [|done]. rewrite <- Hk. congruence.
Qed.

Lemma stable_filter_unique {A} (keep : A -> Prop) (l l1 l2 : list A) :
  stable_filter keep l l1 -> stable_filter keep l l2 -> l1 = l2.
Proof.
  intros H1; revert l2; induction H1 as [|x l l1 Hx _ IH|x l l1 Hx _ IH];
    intros l2 H2; inversion H2; subst; try done.
  - f_equal. by apply IH.
  - by apply IH.
Qed.

Lemma stable_filter_sublist {A} (keep : A -> Prop) (l l' : list A) :
  stable_filter keep l l' -> l' `sublist_of` l.
Proof. induction 1; by constructor. Qed.

Lemma annotations_of_stable (anns : list annotation) (ids : gset Z) :
  stable_filter (fun ann => ann_image_id ann ∈ ids) anns
    (annotations_of anns ids).
Proof. apply listcomp_stable. intros ann. apply bool_decide_eq_true. Qed.

Lemma elem_of_annotations_of (anns : list annotation) (ids : gset Z) ann :
  ann ∈ annotations_of anns ids <-> ann_image_id ann ∈ ids /\ ann ∈ anns.
Proof.
  unfold annotations_of. by rewrite elem_of_listcomp, bool_decide_eq_true.
Qed.

Lemma elem_of_image_ids (imgs : list image) (i : Z) :
  i ∈ image_ids imgs <-> exists img, img ∈ imgs /\ img_id img = i.
Proof.
  unfold image_ids. rewrite elem_of_list_to_set, list_elem_of_fmap.
  naive_solver.
Qed.

(** ** What a successful run returns *)

Section Results.

Context {G : Type} `{RandomSource G}.

Lemma split_data_inv data tr vr te (st : pstate G) outs :
  (split_data data tr vr te st).1 = inr outs ->
  exists sh2 sho g1 g2 cat2 other,
    shuffle (cat2_images data) (seeded st)
    = (inr sh2, {| st_rng := g1; st_trace := st_trace st |})
    /\ cat2_images data ≡ₚ sh2
    /\ shuffle (other_images data)
         {| st_rng := g1; st_trace := st_trace st |}
       = (inr sho, {| st_rng := g2; st_trace := st_trace st |})
    /\ other_images data ≡ₚ sho
    /\ cut_list sh2 tr vr = inr cat2
    /\ cut_list sho tr vr = inr other
    /\ outs = assemble data cat2 other.
Proof.
  destruct (split_data_run data tr vr te st)
    as (sh2 & sho & g1 & g2 & Hs2 & Hp2 & Hso & Hpo & Hrun).
  rewrite Hrun. intros Hres.
  destruct (cut_list sh2 tr vr) as [e|cat2] eqn:Hc2; [done|].
  destruct (cut_list sho tr vr) as [e|other] eqn:Hco; [done|].
  cbn [fst] in Hres. injection Hres as <-.
  exists sh2, sho, g1, g2, cat2, other. by split_and!.
Qed.

(** The run returns the three documents exactly when both strata can be
    cut. *)
Lemma split_data_returns data tr vr te (st : pstate G) sh2 sho g1 g2 cat2 other :
  shuffle (cat2_images data) (seeded st)
    = (inr sh2, {| st_rng := g1; st_trace := st_trace st |}) ->
  shuffle (other_images data) {| st_rng := g1; st_trace := st_trace st |}
    = (inr sho, {| st_rng := g2; st_trace := st_trace st |}) ->
  cut_list sh2 tr vr = inr cat2 ->
  cut_list sho tr vr = inr other ->
  split_data data tr vr te st
  = (inr (assemble data cat2 other),
     {| st_rng := g2; st_trace := st_trace st |}).
Proof.
  intros Hs2 Hso Hc2 Hco.
  destruct (split_data_run data tr vr te st)
    as (sh2' & sho' & g1' & g2' & Hs2' & _ & Hso' & _ & Hrun).
  rewrite Hs2 in Hs2'. simplify_eq. rewrite Hso in Hso'. simplify_eq.
  by rewrite Hrun, Hc2, Hco.
Qed.

Lemma references_present_create data imgs :
  references_present
    (create_output_data data imgs
       (annotations_of (annotations data) (image_ids imgs))).
Proof.
  intros ann [Hid _]%elem_of_annotations_of. simpl.
  by apply elem_of_image_ids in Hid.
Qed.

End Results.

(** ** Counts and cuts under non-negative ratios *)

Lemma scaled_count_floor (total : Z) (r : float) (z : Z) :
  0 <= total -> PyFloat.nonneg r = true -> scaled_count total r = inr z ->
  0 <= z
  /\ exists t, PyFloat.of_int total = inr t
             /\ Qfloor (PyFloat.to_Q (PyFloat.mul t r)) = z.
Proof.
  intros Htotal Hr. unfold scaled_count, ebind.
  destruct (PyFloat.of_int total) as [e|t] eqn:Ht; [done|]. intros Hz.
  assert (PyFloat.not_negative (PyFloat.mul t r)) as Hnn.
  { apply PyFloatFacts.mul_not_negative; [|done].
    by apply (PyFloatFacts.of_int_not_negative total). }
  split; [by eapply PyFloatFacts.to_int_not_negative|].
  exists t. split; [done|]. by apply PyFloatFacts.to_int_floor.
Qed.

Lemma cut_list_partition (sh : list image) tr vr a b c :
  PyFloat.nonneg tr = true -> PyFloat.nonneg vr = true ->
  cut_list sh tr vr = inr (a, b, c) -> a ++ b ++ c = sh.
Proof.
  intros Htr Hvr. unfold cut_list, ebind.
  destruct (scaled_count _ tr) as [e|tc] eqn:Htc; [done|].
  destruct (scaled_count _ vr) as [e|vc] eqn:Hvc; [done|].
  intros [= <- <- <-].
  apply scaled_count_floor in Htc as [Htc _]; [|lia|done].
  apply scaled_count_floor in Hvc as [Hvc _]; [|lia|done].
  by apply slices_partition.
Qed.

Section Partition.

Context {G : Type} `{RandomSource G}.

(** With non-negative train and val ratios the images of the three
    documents are, up to order, the images of the two strata. *)
Lemma split_images_Permutation data tr vr te (st : pstate G) train val test :
  PyFloat.nonneg tr = true -> PyFloat.nonneg vr = true ->
  (split_data data tr vr te st).1 = inr (train, val, test) ->
  out_images train ++ out_images val ++ out_images test
  ≡ₚ cat2_images data ++ other_images data.
Proof.
  intros Htr Hvr Hrun.
  apply split_data_inv in Hrun
    as (sh2 & sho & g1 & g2 & [[a2 b2] c2] & [[ao bo] co]
        & _ & Hp2 & _ & Hpo & Hc2 & Hco & Houts).
  injection Houts as -> -> ->. simpl.
  apply cut_list_partition in Hc2; [|done..].
  apply cut_list_partition in Hco; [|done..].
  rewrite Hp2, Hpo, <- Hc2, <- Hco. solve_Permutation.
Qed.

End Partition.

(** ** The run as a whole *)

Section Run.

Context {G : Type} `{RandomSource G}.

Lemma bind_run {A B} (c : M G A) (k : A -> M G B) (st : pstate G) :
  bind c k st
  = match c st with
    | (inr a, st') => k a st'
    | (inl e, st') => (inl e, st')
    end.
Proof. reflexivity. Qed.

Lemma framed_extends {A} (c : M G A) (st : pstate G) :
  framed c ->
  exists evs, st_trace (c st).2 = st_trace st ++ evs.
Proof.
  intros Hc. destruct st as [g t]. rewrite (Hc g t). simpl. eauto.
Qed.

(** [split_data] starts by seeding the generator: the state of the
    generator it is entered with does not matter. *)
Lemma split_data_seed_irrelevant data tr vr te (g1 g2 : G) t :
  split_data data tr vr te {| st_rng := g1; st_trace := t |}
  = split_data data tr vr te {| st_rng := g2; st_trace := t |}.
Proof. reflexivity. Qed.

Lemma split_data_state_irrelevant data tr vr te (st st' : pstate G) :
  (split_data data tr vr te st).1 = (split_data data tr vr te st').1.
Proof.
  destruct st as [g t], st' as [g' t'].
  rewrite (framed_split_data data tr vr te g t),
    (framed_split_data data tr vr te g' t'); simpl.
  by rewrite (split_data_seed_irrelevant data tr vr te g g').
Qed.

Lemma split_data_trace data tr vr te (st : pstate G) :
  st_trace (split_data data tr vr te st).2 = st_trace st.
Proof.
  destruct (split_data_run data tr vr te st)
    as (sh2 & sho & g1 & g2 & _ & _ & _ & _ & Hrun).
  rewrite Hrun. destruct (cut_list sh2 tr vr); [done|].
  by destruct (cut_list sho tr vr).
Qed.

Lemma load_run E input_file (st : pstate G) :
  load E input_file st
  = (match env_read E input_file with
     | ReadOk data => inr data
     | ReadFails e => inl e
     end,
     {| st_rng := st_rng st; st_trace := st_trace st ++ [EvRead input_file] |}).
Proof. unfold load, bind, emit. by destruct (env_read E input_file). Qed.

Lemma save_json_run E data file_path (st : pstate G) :
  exists evs,
    save_json E data file_path st
    = (inr (bool_decide (is_Some (landing E file_path))),
       {| st_rng := st_rng st; st_trace := st_trace st ++ evs |})
    /\ write_attempts evs = attempts_for E file_path
    /\ writes evs = landed E data file_path
    /\ (landing E file_path = None ->
        MsgSaveFailed ∈ reports evs \/ MsgFallbackFailed ∈ reports evs).
Proof.
  unfold save_json, attempts_for, landed, landing, bind, emit, ret.
  destruct (env_write E file_path); simpl;
    [| destruct (env_write E (fallback_path E file_path)); simpl |];
    rewrite <- ?app_assoc; simpl;
    (eexists; split_and!; [reflexivity|reflexivity|reflexivity|]);
    intros; simplify_eq; simpl; set_solver.
Qed.

End Run.

Section WholeRun.

Context {G : Type} `{RandomSource G}.

Lemma split_coco_json_run E input_file tr vr te (st : pstate G)
    data train val test :
  ratio_sum_ok tr vr te = true ->
  env_read E input_file = ReadOk data ->
  (split_data data tr vr te st).1 = inr (train, val, test) ->
  let train_file := Path.join (Path.dirname input_file) "train.json" in
  let val_file := Path.join (Path.dirname input_file) "val.json" in
  let test_file := Path.join (Path.dirname input_file) "test.json" in
  exists g evs,
    split_coco_json E input_file tr vr te st
    = (inr (train_file, val_file, test_file),
       {| st_rng := g;
          st_trace := st_trace st ++ EvRead input_file :: evs |})
    /\ write_attempts evs
       = attempts_for E train_file ++ attempts_for E val_file
         ++ attempts_for E test_file
    /\ writes evs
       = landed E train train_file ++ landed E val val_file
         ++ landed E test test_file.
Proof.
  intros Hok Hread Hsplit train_file val_file test_file.
  unfold split_coco_json. rewrite Hok. cbn [negb].
  unfold bind at 1. rewrite load_run, Hread.
  set (st1 := {| st_rng := st_rng st;
                 st_trace := st_trace st ++ [EvRead input_file] |}).
  rewrite (split_data_state_irrelevant data tr vr te st st1) in Hsplit.
  pose proof (split_data_trace data tr vr te st1) as Htrace.
  unfold bind at 1.
  destruct (split_data data tr vr te st1) as [r [g2 t2]].
  cbn [fst snd st_trace] in Hsplit, Htrace. subst r t2.
  fold train_file val_file test_file.
  destruct (save_json_run E train train_file
              {| st_rng := g2; st_trace := st_trace st1 |})
    as (evs1 & Hrun1 & Hatt1 & Hwr1 & _).
  unfold bind at 1. rewrite Hrun1. cbn [st_rng st_trace].
  destruct (save_json_run E val val_file
              {| st_rng := g2; st_trace := st_trace st1 ++ evs1 |})
    as (evs2 & Hrun2 & Hatt2 & Hwr2 & _).
  unfold bind at 1. rewrite Hrun2. cbn [st_rng st_trace].
  destruct (save_json_run E test test_file
              {| st_rng := g2; st_trace := (st_trace st1 ++ evs1) ++ evs2 |})
    as (evs3 & Hrun3 & Hatt3 & Hwr3 & _).
  unfold bind at 1. rewrite Hrun3. cbn [st_rng st_trace].
  exists g2, (evs1 ++ evs2 ++ evs3). split_and!.
  - unfold ret, st1. cbn [st_trace]. do 2 f_equal.
    rewrite <- !app_assoc. reflexivity.
  - unfold write_attempts in *. by rewrite !omap_app, Hatt1, Hatt2, Hatt3.
  - unfold writes in *. by rewrite !omap_app, Hwr1, Hwr2, Hwr3.
Qed.

Lemma split_coco_json_rng_irrelevant E input_file tr vr te (g1 g2 : G) t :
  let run g :=
    split_coco_json E input_file tr vr te {| st_rng := g; st_trace := t |} in
  (run g1).1 = (run g2).1 /\ st_trace (run g1).2 = st_trace (run g2).2.
Proof.
  intros run. subst run. cbv beta. unfold split_coco_json.
  destruct (negb _); [done|].
  rewrite !bind_run, !load_run. cbn [st_rng st_trace].
  destruct (env_read E input_file) as [data|e]; [|done].
  rewrite !bind_run.
  by rewrite (split_data_seed_irrelevant data tr vr te g1 g2).
Qed.

End WholeRun.

(** ** Ordinary inputs: the run returns *)

Lemma length_collect {A} `{EqDecision A} (keep : A -> bool) (l acc : list A) :
  (length (collect keep l acc) <= length acc + length l)%nat.
Proof.
  revert acc; induction l as [|a l IH]; intros acc; simpl; [lia|].
  etrans; [apply IH|].
  destruct (keep a); [|lia].
  case_bool_decide; [rewrite length_app; simpl|]; lia.
Qed.

Lemma scaled_count_returns (total : Z) (r : float) :
  0 <= total < 2 ^ 53 -> PyFloat.moderate r ->
  exists z, scaled_count total r = inr z.
Proof.
  intros Htotal Hr. unfold scaled_count, PyFloat.of_int, ebind.
  pose proof (PyFloatFacts.round_Z_below total Htotal) as Ht.
  pose proof (PyFloatFacts.mul_below (PyFloat.round_Z total) r Ht Hr) as Hm.
  destruct (PyFloat.round_Z total) as [st|st| |st mt et]; try done;
    destruct (PyFloat.mul _ r); simpl in *; try done; eauto.
Qed.

Lemma cut_list_returns (sh : list image) tr vr :
  Z.of_nat (length sh) < 2 ^ 53 ->
  PyFloat.moderate tr -> PyFloat.moderate vr ->
  exists parts, cut_list sh tr vr = inr parts.
Proof.
  intros Hlen Htr Hvr. unfold cut_list, ebind.
  destruct (scaled_count_returns (Z.of_nat (length sh)) tr) as [tc ->];
    [lia|done|].
  destruct (scaled_count_returns (Z.of_nat (length sh)) vr) as [vc ->];
    [lia|done|].
  eauto.
Qed.

(** For a document of fewer than [2^53] images and ratios of ordinary
    size, [split_data] returns the three documents. *)
Lemma split_data_total {G : Type} `{RandomSource G}
    data tr vr te (st : pstate G) :
  Z.of_nat (length (images data)) < 2 ^ 53 ->
  PyFloat.moderate tr -> PyFloat.moderate vr ->
  exists train val test,
    (split_data data tr vr te st).1 = inr (train, val, test).
Proof.
  intros Hlen Htr Hvr.
  destruct (split_data_run data tr vr te st)
    as (sh2 & sho & g1 & g2 & _ & Hp2 & _ & Hpo & Hrun).
  pose proof (length_collect (priority data) (images data) []) as Hl2.
  pose proof (length_collect
                (fun img => bool_decide (img ∉ cat2_images data))
                (images data) []) as Hlo.
  rewrite <- cat2_images_collect in Hl2.
  rewrite <- other_images_collect in Hlo.
  apply Permutation_length in Hp2, Hpo. simpl in Hl2, Hlo.
  destruct (cut_list_returns sh2 tr vr) as [cat2 Hc2]; [lia|done|done|].
  destruct (cut_list_returns sho tr vr) as [other Hco]; [lia|done|done|].
  rewrite Hrun, Hc2, Hco.
  destruct (assemble data cat2 other) as [[train val] test]. eauto.
Qed.

(** Every binary64 value of magnitude at most 1 is of ordinary size. *)
Lemma unit_ratios_moderate (r : float) :
  valid_binary PyFloat.prec PyFloat.emax r = true ->
  PyFloat.leb (PyFloat.abs r) PyFloat.one = true ->
  PyFloat.moderate r.
Proof.
  intros Hv Hle.
  destruct r as [s|s| |s m e];
    [exact I|discriminate Hle|discriminate Hle|].
  unfold valid_binary, bounded, canonical_mantissa, fexp, emin,
    PyFloat.prec, PyFloat.emax in Hv.
  apply andb_true_iff in Hv as [Hc _]. apply Z.eqb_eq in Hc.
  unfold PyFloat.leb, SFleb, PyFloat.abs, SFabs, PyFloat.one, SFcompare in Hle.
  unfold PyFloat.moderate, PyFloat.below.
  destruct (Z.compare_spec e (-52)); [lia|lia|discriminate Hle].
Qed.

(** The default ratios are of ordinary size, and the ratios used in the
    examples are binary64 values. *)
Example default_ratios_moderate :
  PyFloat.moderate r08 /\ PyFloat.moderate r01.
Proof. split; split; by vm_compute. Qed.

Example example_ratios_binary64 :
  Forall (fun r => valid_binary PyFloat.prec PyFloat.emax r = true)
    [r08; r01; r005; rm025; r15; r09; rm08; r2p53; r04; rm2p53].
Proof. repeat (apply Forall_cons_2; [by vm_compute|]). apply Forall_nil_2. Qed.

(** ** Negative ratios *)

Section NegativeRatios.

Context {G : Type} `{RandomSource G}.

(** With the ratios -0.25, -0.25 and 1.5 and four images outside the
    priority stratum, whatever the generator does: train takes the first
    three of the shuffled images, val none, and test the last two, so the
    third one is in two splits. *)
Lemma negative_ratios_overlap (st : pstate G) :
  exists a b c d train val test,
    mk_img <$> [1; 2; 3; 4] ≡ₚ [a; b; c; d]
    /\ (split_data four_images rm025 rm025 r15 st).1 = inr (train, val, test)
    /\ out_images train = [a; b; c]
    /\ out_images val = []
    /\ out_images test = [c; d].
Proof.
  destruct (split_data_run four_images rm025 rm025 r15 st)
    as (sh2 & sho & g1 & g2 & _ & Hp2 & _ & Hpo & Hrun).
  change (cat2_images four_images) with (@nil image) in Hp2.
  apply Permutation_nil_l in Hp2 as <-.
  change (other_images four_images) with (mk_img <$> [1; 2; 3; 4]) in Hpo.
  pose proof (Permutation_length Hpo) as Hlen.
  destruct sho as [|a [|b [|c [|d [|? ?]]]]]; try (by vm_compute in Hlen).
  exists a, b, c, d. do 3 eexists. split; [done|].
  rewrite Hrun. by split_and!.
Qed.

End NegativeRatios.

(** * The claims *)

(** C1. Every annotation placed in the annotations list of an output split
    (train, val or test) has an [image_id] that is the [id] of some image
    record in the images list of that same split. *)
Theorem annotations_reference_split_images
    {G : Type} `{RandomSource G} data tr vr te (st : pstate G) train val test :
  (split_data data tr vr te st).1 = inr (train, val, test) ->
  references_present train /\ references_present val
  /\ references_present test.
Proof.
  intros Hrun.
  apply split_data_inv in Hrun
    as (sh2 & sho & g1 & g2 & [[a2 b2] c2] & [[ao bo] co] & _ & _ & _ & _ & _ & _ & Houts).
  injection Houts as -> -> ->.
  split_and!; apply references_present_create.
Qed.

Lemma annotations_reference_split_images_witness :
  (split_data ten_images r08 r01 r01 st0).1
  = inr (ten_split.1.1, ten_split.1.2, ten_split.2)
  /\ references_present ten_split.1.1
  /\ references_present ten_split.1.2
  /\ references_present ten_split.2.
Proof.
  split; [by vm_compute|].
  apply (annotations_reference_split_images ten_images r08 r01 r01 st0).
  by vm_compute.
Defined.

(** C6. The annotations list of each split is exactly the subsequence of
    the input annotations whose [image_id] belongs to the image-id set of
    the split, in the order of the input: it satisfies the specification
    [stable_filter], which determines it, and so depends on the annotations
    and that set only. *)
Theorem split_annotations_stable_filter
    {G : Type} `{RandomSource G} data tr vr te (st : pstate G) train val test :
  (split_data data tr vr te st).1 = inr (train, val, test) ->
  Forall
    (fun d =>
       annotations_projected (annotations data) d
       /\ out_annotations d `sublist_of` annotations data
       /\ forall l,
            stable_filter
              (fun ann => ann_image_id ann ∈ image_ids (out_images d))
              (annotations data) l ->
            l = out_annotations d)
    [train; val; test].
Proof.
  intros Hrun.
  apply split_data_inv in Hrun
    as (sh2 & sho & g1 & g2 & [[a2 b2] c2] & [[ao bo] co] & _ & _ & _ & _ & _ & _ & Houts).
  injection Houts as -> -> ->.
  repeat apply Forall_cons_2; [| | |apply Forall_nil_2];
    (split_and!;
     [apply annotations_of_stable
     |eapply stable_filter_sublist, annotations_of_stable
     |intros l Hl; eapply stable_filter_unique;
        [exact Hl|apply annotations_of_stable]]).
Qed.

Lemma split_annotations_stable_filter_witness :
  (split_data ten_images r08 r01 r01 st0).1
  = inr (ten_split.1.1, ten_split.1.2, ten_split.2)
  /\ annotations_projected (annotations ten_images) ten_split.2.
Proof.
  split; [by vm_compute|].
  pose proof (split_annotations_stable_filter ten_images r08 r01 r01 st0
                ten_split.1.1 ten_split.1.2 ten_split.2) as Hall.
  assert ((split_data ten_images r08 r01 r01 st0).1
          = inr (ten_split.1.1, ten_split.1.2, ten_split.2)) as Hrun
    by (by vm_compute).
  specialize (Hall Hrun).
  rewrite !Forall_cons in Hall. tauto.
Defined.

(** C7. Each output image list consists of the items of the priority
    stratum first, followed by the items of the other stratum, each group
    in its post-shuffle order: with [sh2] and [sho] the two strata as the
    shuffles of lines 72 left them, and [tc], [vc] the counts
    [int(total * train_r)] and [int(total * val_r)] of each stratum, the
    train images are [sh2[:tc2] + sho[:tco]], the val images
    [sh2[tc2:tc2+vc2] + sho[tco:tco+vco]] and the test images
    [sh2[tc2+vc2:] + sho[tco+vco:]] (lines 76-78 and 88-90). *)
Theorem split_images_priority_then_other
    {G : Type} `{RandomSource G} data tr vr te (st : pstate G) train val test :
  (split_data data tr vr te st).1 = inr (train, val, test) ->
  exists sh2 sho g1 g2 tc2 vc2 tco vco,
    shuffle (cat2_images data) (seeded st)
    = (inr sh2, {| st_rng := g1; st_trace := st_trace st |})
    /\ shuffle (other_images data)
         {| st_rng := g1; st_trace := st_trace st |}
       = (inr sho, {| st_rng := g2; st_trace := st_trace st |})
    /\ (forall img,
          img ∈ sh2 <-> img ∈ images data /\ priority data img = true)
    /\ (forall img,
          img ∈ sho <-> img ∈ images data /\ priority data img = false)
    /\ scaled_count (Z.of_nat (length sh2)) tr = inr tc2
    /\ scaled_count (Z.of_nat (length sh2)) vr = inr vc2
    /\ scaled_count (Z.of_nat (length sho)) tr = inr tco
    /\ scaled_count (Z.of_nat (length sho)) vr = inr vco
    /\ stratum_order data
         (py_slice None (Some tc2) sh2)
         (py_slice None (Some tco) sho) train
    /\ stratum_order data
         (py_slice (Some tc2) (Some (tc2 + vc2)) sh2)
         (py_slice (Some tco) (Some (tco + vco)) sho) val
    /\ stratum_order data
         (py_slice (Some (tc2 + vc2)) None sh2)
         (py_slice (Some (tco + vco)) None sho) test.
Proof.
  intros Hrun.
  apply split_data_inv in Hrun
    as (sh2 & sho & g1 & g2 & [[a2 b2] c2] & [[ao bo] co]
        & Hs2 & Hp2 & Hso & Hpo & Hc2 & Hco & Houts).
  injection Houts as -> -> ->.
  unfold cut_list, ebind in Hc2, Hco.
  destruct (scaled_count _ tr) as [?|tc2] eqn:Htc2 in Hc2; [done|].
  destruct (scaled_count _ vr) as [?|vc2] eqn:Hvc2 in Hc2; [done|].
  destruct (scaled_count _ tr) as [?|tco] eqn:Htco in Hco; [done|].
  destruct (scaled_count _ vr) as [?|vco] eqn:Hvco in Hco; [done|].
  injection Hc2 as <- <- <-. injection Hco as <- <- <-.
  assert (forall img, img ∈ sh2
            <-> img ∈ images data /\ priority data img = true) as Hin2
    by (intros img; rewrite <- Hp2; apply elem_of_cat2_images).
  assert (forall img, img ∈ sho
            <-> img ∈ images data /\ priority data img = false) as Hino
    by (intros img; rewrite <- Hpo; apply elem_of_other_images).
  assert (forall lo hi,
            Forall (fun img => priority data img = true)
              (py_slice lo hi sh2)) as Hall2.
  { intros lo hi. apply Forall_forall. intros img Himg.
    pose proof (elem_of_sublist _ sh2 _ Himg (py_slice_sublist lo hi sh2))
      as Hsh. exact (proj2 (proj1 (Hin2 img) Hsh)). }
  assert (forall lo hi,
            Forall (fun img => priority data img = false)
              (py_slice lo hi sho)) as Hallo.
  { intros lo hi. apply Forall_forall. intros img Himg.
    pose proof (elem_of_sublist _ sho _ Himg (py_slice_sublist lo hi sho))
      as Hsh. exact (proj2 (proj1 (Hino img) Hsh)). }
  exists sh2, sho, g1, g2, tc2, vc2, tco, vco.
  split_and!; try done; by split_and!.
Qed.

Lemma split_images_priority_then_other_witness :
  (split_data ten_images r08 r01 r01 st0).1
  = inr (ten_split.1.1, ten_split.1.2, ten_split.2)
  /\ exists sh2 sho,
       (shuffle (cat2_images ten_images) (seeded st0)).1 = inr sh2
       /\ length sh2 = 4%nat /\ length sho = 6%nat
       /\ stratum_order ten_images
            (py_slice None (Some 3) sh2)
            (py_slice None (Some 4) sho) ten_split.1.1
       /\ stratum_order ten_images
            (py_slice (Some 3) (Some (3 + 0)) sh2)
            (py_slice (Some 4) (Some (4 + 0)) sho) ten_split.1.2
       /\ stratum_order ten_images
            (py_slice (Some (3 + 0)) None sh2)
            (py_slice (Some (4 + 0)) None sho) ten_split.2.
Proof.
  split; [by vm_compute|].
  destruct (split_images_priority_then_other ten_images r08 r01 r01 st0
              ten_split.1.1 ten_split.1.2 ten_split.2)
    as (sh2 & sho & g1 & g2 & tc2 & vc2 & tco & vco & Hs2 & Hso & _ & _
        & Htc2 & Hvc2 & Htco & Hvco & Ht & Hv & Hte);
    [by vm_compute|].
  vm_compute in Hs2. injection Hs2 as <- <-.
  vm_compute in Hso. injection Hso as <- <-.
  vm_compute in Htc2, Hvc2, Htco, Hvco.
  injection Htc2 as <-. injection Hvc2 as <-.
  injection Htco as <-. injection Hvco as <-.
  eexists _, _.
  split_and!; [by vm_compute|idtac|idtac|exact Ht|exact Hv|exact Hte]; done.
Defined.


(** The scenario of the specification: of the ten images four are in the
    priority stratum and six in the other; with ratios 0.8, 0.1, 0.1 the
    counts are 3 and 0 for the first and 4 and 0 for the second, so train
    has seven images, val none and test three. *)
Example ten_images_scenario :
  length (cat2_images ten_images) = 4%nat
  /\ length (other_images ten_images) = 6%nat
  /\ scaled_count 4 r08 = inr 3 /\ scaled_count 4 r01 = inr 0
  /\ scaled_count 6 r08 = inr 4 /\ scaled_count 6 r01 = inr 0
  /\ length (out_images ten_split.1.1) = 7%nat
  /\ length (out_images ten_split.1.2) = 0%nat
  /\ length (out_images ten_split.2) = 3%nat.
Proof. by vm_compute. Qed.

(** C2, as amended. When no two image records of the input share an
    identifier and the train and val ratios are non-negative, the three
    output image lists together are a rearrangement of the input images, so
    their lengths sum to the length of the input images list. *)
Theorem split_images_partition_input
    {G : Type} `{RandomSource G} data tr vr te (st : pstate G) train val test :
  NoDup (img_id <$> images data) ->
  PyFloat.nonneg tr = true -> PyFloat.nonneg vr = true ->
  (split_data data tr vr te st).1 = inr (train, val, test) ->
  out_images train ++ out_images val ++ out_images test ≡ₚ images data
  /\ (length (out_images train) + length (out_images val)
      + length (out_images test))%nat
     = length (images data).
Proof.
  intros Hids Htr Hvr Hrun.
  assert (out_images train ++ out_images val ++ out_images test
          ≡ₚ images data) as Hperm.
  { etrans; [exact (split_images_Permutation _ _ _ _ _ _ _ _ Htr Hvr Hrun)|].
    apply strata_Permutation. by eapply NoDup_fmap_1. }
  split; [done|].
  apply Permutation_length in Hperm. rewrite !length_app in Hperm. lia.
Qed.

Lemma split_images_partition_input_witness :
  NoDup (img_id <$> images ten_images)
  /\ out_images ten_split.1.1 ++ out_images ten_split.1.2
       ++ out_images ten_split.2 ≡ₚ images ten_images
  /\ (length (out_images ten_split.1.1) + length (out_images ten_split.1.2)
      + length (out_images ten_split.2))%nat
     = length (images ten_images).
Proof.
  assert (NoDup (img_id <$> images ten_images)) as Hids
    by decide_by_compute.
  split; [done|].
  apply (split_images_partition_input ten_images r08 r01 r01 st0);
    [done|by vm_compute..].
Defined.

(** C2 as stated fails: the ratios -0.25, -0.25, 1.5 pass the check of
    line 16, the four images have distinct identifiers, and the three
    output lists hold five images. *)
Lemma split_images_partition_input_counterexample :
  ratio_sum_ok rm025 rm025 r15 = true
  /\ NoDup (img_id <$> images four_images)
  /\ (split_data four_images rm025 rm025 r15 st0).1
     = inr (four_split.1.1, four_split.1.2, four_split.2)
  /\ (length (out_images four_split.1.1) + length (out_images four_split.1.2)
      + length (out_images four_split.2))%nat
     <> length (images four_images).
Proof.
  split_and!; [by vm_compute| |by vm_compute|by vm_compute].
  decide_by_compute.
Qed.

(** C3, as amended. For every stratum list of length [total] and every
    ratio triple whose train and val ratios are non-negative and whose
    counts [train_count = int(total * train_ratio)] and
    [val_count = int(total * val_ratio)] add up to at most [total]:
    [split_list] returns, the counts are the floors of the float products,
    train is the first [train_count] items of the shuffled list, val the
    next [val_count], and test all the remaining
    [total - train_count - val_count]; the test ratio plays no part. *)
Theorem split_list_floor_then_remainder
    {G : Type} `{RandomSource G} (items : list image) tr vr te
    (st : pstate G) (tc vc : Z) :
  PyFloat.nonneg tr = true -> PyFloat.nonneg vr = true ->
  scaled_count (Z.of_nat (length items)) tr = inr tc ->
  scaled_count (Z.of_nat (length items)) vr = inr vc ->
  tc + vc <= Z.of_nat (length items) ->
  exists sh g t train val test,
    shuffle items st = (inr sh, {| st_rng := g; st_trace := st_trace st |})
    /\ split_list items tr vr te st
       = (inr (train, val, test),
          {| st_rng := g; st_trace := st_trace st |})
    /\ PyFloat.of_int (Z.of_nat (length items)) = inr t
    /\ Qfloor (PyFloat.to_Q (PyFloat.mul t tr)) = tc
    /\ Qfloor (PyFloat.to_Q (PyFloat.mul t vr)) = vc
    /\ train = take (Z.to_nat tc) sh
    /\ val = take (Z.to_nat vc) (drop (Z.to_nat tc) sh)
    /\ test = drop (Z.to_nat tc + Z.to_nat vc) sh
    /\ Z.of_nat (length train) = tc
    /\ Z.of_nat (length val) = vc
    /\ Z.of_nat (length test) = Z.of_nat (length items) - tc - vc
    /\ forall te', split_list items tr vr te' st = split_list items tr vr te st.
Proof.
  intros Htr Hvr Htc Hvc Hsum.
  destruct (split_list_run items tr vr te st) as (sh & g & Hsh & Hperm & Hrun).
  pose proof (Permutation_length Hperm) as Hlen.
  assert (0 <= Z.of_nat (length items)) as Hpos by lia.
  destruct (scaled_count_floor _ _ _ Hpos Htr Htc)
    as (Htc0 & t & Ht & Hfloor_t).
  destruct (scaled_count_floor _ _ _ Hpos Hvr Hvc)
    as (Hvc0 & t' & Ht' & Hfloor_v).
  rewrite Ht in Ht'. injection Ht' as <-.
  exists sh, g, t, (take (Z.to_nat tc) sh),
    (take (Z.to_nat vc) (drop (Z.to_nat tc) sh)),
    (drop (Z.to_nat tc + Z.to_nat vc) sh).
  split_and!; try done.
  - rewrite Hrun. unfold cut_list, ebind. rewrite <- Hlen, Htc, Hvc.
    rewrite py_slice_prefix, py_slice_middle, py_slice_suffix by lia.
    by rewrite Z2Nat.inj_add by lia.
  - rewrite length_take. lia.
  - rewrite length_take, length_drop. lia.
  - rewrite length_drop. lia.
Qed.

Lemma split_list_floor_then_remainder_witness :
  exists sh train val test,
    (shuffle (images ten_images) st0).1 = inr sh
    /\ (split_list (images ten_images) r08 r01 r01 st0).1
       = inr (train, val, test)
    /\ train = take 8 sh /\ val = take 1 (drop 8 sh) /\ test = drop 9 sh.
Proof.
  destruct (split_list_floor_then_remainder
              (images ten_images) r08 r01 r01 st0 8 1)
    as (sh & g & t & train & val & test & Hsh & Hrun & _ & _ & _
        & Htrain & Hval & Htest & _);
    [by vm_compute..|].
  exists sh, train, val, test. rewrite Hsh, Hrun. by split_and!.
Defined.

(** C3 as stated fails for ratio triples that pass the check of
    line 16. With ratios -0.25, -0.25, 1.5 and four items both counts are
    -1 (the float product is exactly -1), yet train receives three items
    and test two, not the 4 - (-1) - (-1) = 6 of the claim. With ratios
    0.9, 0.9, -0.8 and ten items both counts are 9, yet val receives one
    item and test none. *)
Lemma split_list_floor_then_remainder_counterexample :
  (ratio_sum_ok rm025 rm025 r15 = true
   /\ scaled_count 4 rm025 = inr (-1)
   /\ (exists t, PyFloat.of_int 4 = inr t
                /\ Qfloor (PyFloat.to_Q (PyFloat.mul t rm025)) = -1)
   /\ exists train val test,
        (split_list (images four_images) rm025 rm025 r15 st0).1
        = inr (train, val, test)
        /\ length train = 3%nat /\ length val = 0%nat /\ length test = 2%nat
        /\ Z.of_nat (length test)
           <> Z.of_nat (length (images four_images)) - (-1) - (-1))
  /\ (ratio_sum_ok r09 r09 rm08 = true
      /\ scaled_count 10 r09 = inr 9
      /\ exists train val test,
           (split_list (images ten_images) r09 r09 rm08 st0).1
           = inr (train, val, test)
           /\ length train = 9%nat /\ length val = 1%nat
           /\ length test = 0%nat).
Proof.
  split; split_and!; try (by vm_compute).
  - eexists. split; by vm_compute.
  - eexists _, _, _. split; [by vm_compute|]. by vm_compute.
  - eexists _, _, _. split; [by vm_compute|]. by vm_compute.
Qed.

(** C9, as amended. Whatever the input, each image record of it is in the
    two strata exactly once, however often it is repeated in the input;
    and when the train and val ratios are non-negative, each record is
    exactly once in the three output image lists taken together. The
    first part has no condition on the ratios or on the run. *)
Theorem repeated_records_kept_once
    {G : Type} `{RandomSource G} (data : document) :
  (NoDup (cat2_images data ++ other_images data)
   /\ forall img,
        img ∈ cat2_images data ++ other_images data <-> img ∈ images data)
  /\ forall tr vr te (st : pstate G) train val test,
       PyFloat.nonneg tr = true -> PyFloat.nonneg vr = true ->
       (split_data data tr vr te st).1 = inr (train, val, test) ->
       NoDup (out_images train ++ out_images val ++ out_images test)
       /\ forall img,
            img ∈ out_images train ++ out_images val ++ out_images test
            <-> img ∈ images data.
Proof.
  split; [split; [apply NoDup_strata|apply elem_of_strata]|].
  intros tr vr te st train val test Htr Hvr Hrun.
  pose proof (split_images_Permutation _ _ _ _ _ _ _ _ Htr Hvr Hrun) as Hperm.
  split.
  - rewrite Hperm. apply NoDup_strata.
  - intros img. rewrite Hperm. apply elem_of_strata.
Qed.

(** Every record of [doubled_images] is there twice; under the default
    ratios each of the four records is once in the strata and once in the
    three output lists. *)
Lemma repeated_records_kept_once_witness :
  (forall img, img ∈ images doubled_images ->
     length (filter (fun i => i = img) (images doubled_images)) = 2%nat)
  /\ PyFloat.nonneg r08 = true /\ PyFloat.nonneg r01 = true
  /\ (split_data doubled_images r08 r01 r01 st0).1
     = inr (doubled_default_split.1.1, doubled_default_split.1.2,
            doubled_default_split.2)
  /\ NoDup (cat2_images doubled_images ++ other_images doubled_images)
  /\ length (cat2_images doubled_images ++ other_images doubled_images)
     = 4%nat
  /\ NoDup (out_images doubled_default_split.1.1
            ++ out_images doubled_default_split.1.2
            ++ out_images doubled_default_split.2)
  /\ length (out_images doubled_default_split.1.1
             ++ out_images doubled_default_split.1.2
             ++ out_images doubled_default_split.2) = 4%nat.
Proof.
  destruct (repeated_records_kept_once (G := Z) doubled_images)
    as [[Hstrata _] Hout].
  destruct (Hout r08 r01 r01 st0 doubled_default_split.1.1
              doubled_default_split.1.2 doubled_default_split.2)
    as [Hnodup _]; [by vm_compute..|].
  split_and!; [|by vm_compute|by vm_compute|by vm_compute|exact Hstrata
              |by vm_compute|exact Hnodup|by vm_compute].
  intros img Himg. apply list_elem_of_fmap in Himg as (i & -> & Hi).
  repeat (apply elem_of_cons in Hi as [->|Hi]; [by vm_compute|]).
  by apply elem_of_nil in Hi.
Defined.

(** C9 as stated fails: every record of the input is there twice, the
    ratios -0.25, -0.25, 1.5 pass the check of line 16, and the record
    with identifier 3 is both in the train and in the test images. *)
Lemma repeated_records_kept_once_counterexample :
  ratio_sum_ok rm025 rm025 r15 = true
  /\ (forall img, img ∈ images doubled_images ->
        (2 <= length (filter (fun i => i = img) (images doubled_images)))%nat)
  /\ (split_data doubled_images rm025 rm025 r15 st0).1
     = inr (doubled_split.1.1, doubled_split.1.2, doubled_split.2)
  /\ mk_img 3 ∈ out_images doubled_split.1.1
  /\ mk_img 3 ∈ out_images doubled_split.2
  /\ ~ NoDup (out_images doubled_split.1.1 ++ out_images doubled_split.1.2
                ++ out_images doubled_split.2).
Proof.
  split_and!; [by vm_compute| |by vm_compute|decide_by_compute..].
  intros img Himg. apply list_elem_of_fmap in Himg as (i & -> & Hi).
  repeat (apply elem_of_cons in Hi as [->|Hi]; [by vm_compute|]).
  by apply elem_of_nil in Hi.
Qed.

(** C10, as amended. When the image records of the input have pairwise
    distinct identifiers and the train and val ratios are non-negative,
    the image-id sets of the three splits are pairwise disjoint, and no
    annotation is in the annotations lists of two splits. *)
Theorem split_image_ids_disjoint
    {G : Type} `{RandomSource G} data tr vr te (st : pstate G) train val test :
  NoDup (img_id <$> images data) ->
  PyFloat.nonneg tr = true -> PyFloat.nonneg vr = true ->
  (split_data data tr vr te st).1 = inr (train, val, test) ->
  image_ids (out_images train) ## image_ids (out_images val)
  /\ image_ids (out_images train) ## image_ids (out_images test)
  /\ image_ids (out_images val) ## image_ids (out_images test)
  /\ forall ann,
       ~ (ann ∈ out_annotations train /\ ann ∈ out_annotations val)
       /\ ~ (ann ∈ out_annotations train /\ ann ∈ out_annotations test)
       /\ ~ (ann ∈ out_annotations val /\ ann ∈ out_annotations test).
Proof.
  intros Hids Htr Hvr Hrun.
  pose proof (split_images_Permutation _ _ _ _ _ _ _ _ Htr Hvr Hrun) as Hperm.
  rewrite (strata_Permutation data) in Hperm by (by eapply NoDup_fmap_1).
  assert (NoDup (img_id <$> out_images train ++ out_images val
                   ++ out_images test)) as Hnd by (by rewrite Hperm).
  rewrite !fmap_app in Hnd.
  apply NoDup_app in Hnd as (_ & Htv & Hnd).
  apply NoDup_app in Hnd as (_ & Hvt & _).
  assert (forall a b : list image,
            (forall i, i ∈ img_id <$> a -> i ∉ img_id <$> b) ->
            image_ids a ## image_ids b) as Hdisj.
  { intros a b Hab. apply elem_of_disjoint. intros i.
    unfold image_ids. rewrite !elem_of_list_to_set. apply Hab. }
  assert (image_ids (out_images train) ## image_ids (out_images val)) as D1.
  { apply Hdisj. intros i Hi Hi'. apply (Htv i Hi), elem_of_app. by left. }
  assert (image_ids (out_images train) ## image_ids (out_images test)) as D2.
  { apply Hdisj. intros i Hi Hi'. apply (Htv i Hi), elem_of_app. by right. }
  assert (image_ids (out_images val) ## image_ids (out_images test)) as D3.
  { apply Hdisj. intros i Hi Hi'. by apply (Hvt i Hi). }
  split_and!; [done..|].
  apply split_data_inv in Hrun
    as (sh2 & sho & g1 & g2 & [[a2 b2] c2] & [[ao bo] co]
        & _ & _ & _ & _ & _ & _ & Houts).
  injection Houts as -> -> ->. simpl in *.
  intros ann. rewrite !elem_of_annotations_of.
  rewrite elem_of_disjoint in D1, D2, D3. naive_solver.
Qed.

Lemma split_image_ids_disjoint_witness :
  image_ids (out_images ten_split.1.1) ## image_ids (out_images ten_split.1.2)
  /\ image_ids (out_images ten_split.1.1) ## image_ids (out_images ten_split.2)
  /\ image_ids (out_images ten_split.1.2) ## image_ids (out_images ten_split.2).
Proof.
  destruct (split_image_ids_disjoint ten_images r08 r01 r01 st0
              ten_split.1.1 ten_split.1.2 ten_split.2)
    as (D1 & D2 & D3 & _);
    [decide_by_compute|by vm_compute..|].
  by split_and!.
Defined.

(** C10 as stated fails: the four images have distinct identifiers, the
    ratios -0.25, -0.25, 1.5 pass the check of line 16, and identifier 3 is
    both in the train and in the test image ids, its annotation both in the
    train and in the test annotations. *)
Lemma split_image_ids_disjoint_counterexample :
  ratio_sum_ok rm025 rm025 r15 = true
  /\ NoDup (img_id <$> images four_images)
  /\ (split_data four_images rm025 rm025 r15 st0).1
     = inr (four_split.1.1, four_split.1.2, four_split.2)
  /\ 3 ∈ image_ids (out_images four_split.1.1)
  /\ 3 ∈ image_ids (out_images four_split.2)
  /\ mk_ann 3 2 ∈ annotations four_images
  /\ mk_ann 3 2 ∈ out_annotations four_split.1.1
  /\ mk_ann 3 2 ∈ out_annotations four_split.2.
Proof.
  split_and!;
    [by vm_compute|decide_by_compute|by vm_compute|decide_by_compute..].
Qed.

(** C4. When the float sum of the three ratios is not within 1e-6 of 1
    the run raises the assertion error at once: nothing is read, nothing
    is written, the state is untouched. When it is within the tolerance the
    check passes, and the first thing the program does is open the input
    file. *)
Theorem ratio_precondition_fails_fast
    {G : Type} `{RandomSource G} E input_file tr vr te (st : pstate G) :
  if ratio_sum_ok tr vr te
  then exists evs,
         st_trace (split_coco_json E input_file tr vr te st).2
         = st_trace st ++ EvRead input_file :: evs
  else split_coco_json E input_file tr vr te st = (inl AssertionError, st).
Proof.
  unfold split_coco_json. destruct (ratio_sum_ok tr vr te); [|done].
  cbn [negb]. rewrite bind_run, load_run.
  destruct (env_read E input_file) as [data|e].
  - match goal with
    | |- context [bind ?c ?k ?st1] =>
        destruct (framed_extends (bind c k) st1) as [evs Hevs]
    end.
    { apply framed_bind; [apply framed_split_data|intros [[? ?] ?]].
      repeat (apply framed_bind; [apply framed_save_json|intros _]).
      apply framed_ret. }
    exists evs. rewrite Hevs. cbn [st_trace]. by rewrite <- app_assoc.
  - by exists [].
Qed.

(** The triple 0.8, 0.1, 0.05 of the specification is rejected before the
    input is opened, the default triple 0.8, 0.1, 0.1 is not. *)
Example ratio_precondition_examples :
  split_coco_json env0 "/d/result.json" r08 r01 r005 st0
  = (inl AssertionError, st0)
  /\ ratio_sum_ok r08 r01 r01 = true.
Proof. split; by vm_compute. Qed.

(** The sum of the check is the float sum, rounded after each addition:
    the triple 2^53, 0.4, -(2^53 - 1) passes although the exact sum of the
    three floats is above 1.4. *)
Example ratio_sum_is_rounded :
  ratio_sum_ok r2p53 r04 rm2p53 = true
  /\ (14 # 10 < PyFloat.to_Q r2p53 + PyFloat.to_Q r04 + PyFloat.to_Q rm2p53)%Q.
Proof. split; by vm_compute. Qed.

(** C5. The result of a run and what it reads, writes and prints are a
    function of the environment (the input document among it) and the
    ratios alone: they are the same from every state of the generator and
    after every history, so two runs in a row do the same. The three
    documents are a function of the input document and the ratios. *)
Theorem split_is_deterministic
    {G : Type} `{RandomSource G} E input_file tr vr te :
  (exists res evs, forall st : pstate G,
      (split_coco_json E input_file tr vr te st).1 = res
      /\ st_trace (split_coco_json E input_file tr vr te st).2
         = st_trace st ++ evs)
  /\ (forall data, exists outs, forall st : pstate G,
        (split_data data tr vr te st).1 = outs).
Proof.
  split.
  - set (st42 := {| st_rng := rs_seed 42; st_trace := [] |} : pstate G).
    exists (split_coco_json E input_file tr vr te st42).1,
      (st_trace (split_coco_json E input_file tr vr te st42).2).
    intros [g t].
    rewrite (framed_split_coco_json E input_file tr vr te g t).
    cbn [fst snd st_trace].
    destruct (split_coco_json_rng_irrelevant E input_file tr vr te
                g (rs_seed 42) []) as [-> ->].
    done.
  - intros data.
    exists (split_data data tr vr te
              {| st_rng := rs_seed 42; st_trace := [] |}).1.
    intros st. apply split_data_state_irrelevant.
Qed.

(** Two runs in a row on the ten images write the same documents to the
    same places. *)
Example split_twice_example :
  let run1 := split_coco_json env0 "/d/result.json" r08 r01 r01 st0 in
  let run2 := split_coco_json env0 "/d/result.json" r08 r01 r01 run1.2 in
  run2.1 = run1.1
  /\ st_rng run1.2 <> st_rng st0
  /\ st_trace run2.2 = st_trace run1.2 ++ st_trace run1.2.
Proof. by vm_compute. Qed.

(** C8. [save_json] tries the path once; only after a permission error
    does it try once more, at the fallback path made of the home directory
    and the base name of the path. It never raises: it returns whether the
    document landed somewhere, and a failure is reported by a message. In a
    run the three documents are attempted one after the other whatever
    became of the ones before, and the run returns the three paths. *)
Theorem writer_fallback_and_isolation
    {G : Type} `{RandomSource G} E input_file tr vr te (st : pstate G)
    data train val test :
  ratio_sum_ok tr vr te = true ->
  env_read E input_file = ReadOk data ->
  (split_data data tr vr te st).1 = inr (train, val, test) ->
  let train_file := Path.join (Path.dirname input_file) "train.json" in
  let val_file := Path.join (Path.dirname input_file) "val.json" in
  let test_file := Path.join (Path.dirname input_file) "test.json" in
  (forall d p (st' : pstate G),
      fallback_path E p = Path.join (env_home E) (Path.basename p)
      /\ exists evs,
          save_json E d p st'
          = (inr (bool_decide (is_Some (landing E p))),
             {| st_rng := st_rng st'; st_trace := st_trace st' ++ evs |})
          /\ write_attempts evs = attempts_for E p
          /\ writes evs = landed E d p
          /\ (landing E p = None ->
              MsgSaveFailed ∈ reports evs \/ MsgFallbackFailed ∈ reports evs))
  /\ exists g evs,
      split_coco_json E input_file tr vr te st
      = (inr (train_file, val_file, test_file),
         {| st_rng := g;
            st_trace := st_trace st ++ EvRead input_file :: evs |})
      /\ write_attempts evs
         = attempts_for E train_file ++ attempts_for E val_file
           ++ attempts_for E test_file
      /\ writes evs
         = landed E train train_file ++ landed E val val_file
           ++ landed E test test_file.
Proof.
  intros Hok Hread Hsplit train_file val_file test_file. split.
  - intros d p st'. split; [done|]. apply save_json_run.
  - by apply (split_coco_json_run E input_file tr vr te st data).
Qed.

Lemma writer_fallback_and_isolation_witness :
  exists g evs,
    split_coco_json env0 "/d/result.json" r08 r01 r01 st0
    = (inr ("/d/train.json", "/d/val.json", "/d/test.json")%string,
       {| st_rng := g; st_trace := EvRead "/d/result.json" :: evs |})
    /\ write_attempts evs
       = ["/d/train.json"; "/d/val.json"; "/home/u/val.json";
          "/d/test.json"]%string
    /\ writes evs
       = [("/d/train.json"%string, ten_split.1.1);
          ("/home/u/val.json"%string, ten_split.1.2)].
Proof.
  destruct (writer_fallback_and_isolation env0 "/d/result.json"
              r08 r01 r01 st0 ten_images
              ten_split.1.1 ten_split.1.2 ten_split.2)
    as (_ & g & evs & Hrun & Hatt & Hwr); [by vm_compute..|].
  exists g, evs. split_and!.
  - exact Hrun.
  - rewrite Hatt. by vm_compute.
  - rewrite Hwr. by vm_compute.
Defined.


(** * Further properties of the program *)

(** ** The three slices of [split_list], for any counts *)

Section SliceShape.

Context {A : Type}.
Implicit Types l : list A.

Lemma slice_index_range (n i : Z) : 0 <= n -> 0 <= slice_index n i <= n.
Proof.
  intros Hn. unfold slice_index. destruct (Z.ltb_spec i 0); lia.
Qed.

Lemma py_slice_shape l (tc vc : Z) :
  let n := Z.of_nat (length l) in
  let a := Z.to_nat (slice_index n tc) in
  let b := Z.to_nat (slice_index n (tc + vc)) in
  (a <= length l)%nat /\ (b <= length l)%nat
  /\ py_slice None (Some tc) l = take a l
  /\ py_slice (Some tc) (Some (tc + vc)) l = take (b - a) (drop a l)
  /\ py_slice (Some (tc + vc)) None l = drop b l.
Proof.
  intros n a b.
  pose proof (slice_index_range n tc ltac:(lia)) as Ha.
  pose proof (slice_index_range n (tc + vc) ltac:(lia)) as Hb.
  assert (slice_index n 0 = 0) as H0
    by (unfold slice_index; destruct (Z.ltb_spec 0 0); lia).
  assert (slice_index n n = n) as Hn
    by (unfold slice_index; destruct (Z.ltb_spec n 0); lia).
  split_and!; [lia|lia| | |]; unfold py_slice;
    cbn [default from_option id]; unfold id; fold n.
  - rewrite H0, Z.sub_0_r. change (Z.to_nat 0) with 0%nat. by rewrite drop_0.
  - f_equal. subst a b. lia.
  - rewrite Hn. fold b. apply take_ge. rewrite length_drop. lia.
Qed.

(** Whatever the two bounds, no element is left out of the three pieces. *)
Lemma three_pieces_cover l (a b : nat) x :
  x ∈ l -> x ∈ take a l \/ x ∈ take (b - a) (drop a l) \/ x ∈ drop b l.
Proof.
  intros Hx. rewrite <- (take_drop b l) in Hx.
  apply elem_of_app in Hx as [Hx|Hx]; [|by right; right].
  destruct (le_lt_dec b a) as [Hle|Hlt].
  - left. replace b with (min b a) in Hx by lia.
    rewrite <- take_take in Hx. by eapply elem_of_sublist, sublist_take.
  - replace b with (a + (b - a))%nat in Hx by lia.
    rewrite <- take_take_drop in Hx.
    apply elem_of_app in Hx as [Hx|Hx]; [by left|by right; left].
Qed.

End SliceShape.

Lemma cut_list_shape (sh : list image) tr vr train val test :
  cut_list sh tr vr = inr (train, val, test) ->
  exists a b : nat,
    (a <= length sh)%nat /\ (b <= length sh)%nat
    /\ train = take a sh /\ val = take (b - a) (drop a sh) /\ test = drop b sh.
Proof.
  unfold cut_list, ebind.
  destruct (scaled_count _ tr) as [e|tc]; [done|].
  destruct (scaled_count _ vr) as [e|vc]; [done|].
  intros [= <- <- <-].
  destruct (py_slice_shape sh tc vc) as (Ha & Hb & -> & -> & ->).
  exists (Z.to_nat (slice_index (Z.of_nat (length sh)) tc)),
    (Z.to_nat (slice_index (Z.of_nat (length sh)) (tc + vc))).
  by split_and!.
Qed.

Lemma cut_list_cover (sh : list image) tr vr train val test x :
  cut_list sh tr vr = inr (train, val, test) ->
  x ∈ sh <-> x ∈ train \/ x ∈ val \/ x ∈ test.
Proof.
  intros (a & b & _ & _ & -> & -> & ->)%cut_list_shape. split.
  - apply three_pieces_cover.
  - intros [Hx|[Hx|Hx]].
    + by eapply elem_of_sublist, sublist_take.
    + eapply elem_of_sublist; [exact Hx|].
      etrans; [apply sublist_take|apply sublist_drop].
    + by eapply elem_of_sublist, sublist_drop.
Qed.

Section Coverage.

Context {G : Type} `{RandomSource G}.

Lemma split_images_cover data tr vr te (st : pstate G) train val test img :
  (split_data data tr vr te st).1 = inr (train, val, test) ->
  img ∈ images data
  <-> img ∈ out_images train \/ img ∈ out_images val \/ img ∈ out_images test.
Proof.
  intros Hrun.
  apply split_data_inv in Hrun
    as (sh2 & sho & g1 & g2 & [[a2 b2] c2] & [[ao bo] co]
        & _ & Hp2 & _ & Hpo & Hc2 & Hco & Houts).
  injection Houts as -> -> ->. simpl.
  rewrite <- elem_of_strata, !elem_of_app, Hp2, Hpo.
  rewrite (cut_list_cover _ _ _ _ _ _ img Hc2),
    (cut_list_cover _ _ _ _ _ _ img Hco).
  tauto.
Qed.

Lemma split_image_ids_cover data tr vr te (st : pstate G) train val test i :
  (split_data data tr vr te st).1 = inr (train, val, test) ->
  i ∈ image_ids (images data)
  <-> i ∈ image_ids (out_images train) \/ i ∈ image_ids (out_images val)
      \/ i ∈ image_ids (out_images test).
Proof.
  intros Hrun. rewrite !elem_of_image_ids.
  split.
  - intros (img & Himg & <-).
    apply (split_images_cover _ _ _ _ _ _ _ _ img Hrun) in Himg.
    naive_solver.
  - intros [(img & Himg & <-)|[(img & Himg & <-)|(img & Himg & <-)]];
      exists img; (split; [|done]);
      apply (split_images_cover _ _ _ _ _ _ _ _ img Hrun); tauto.
Qed.

Lemma split_annotations_of data tr vr te (st : pstate G) train val test :
  (split_data data tr vr te st).1 = inr (train, val, test) ->
  out_annotations train
  = annotations_of (annotations data) (image_ids (out_images train))
  /\ out_annotations val
     = annotations_of (annotations data) (image_ids (out_images val))
  /\ out_annotations test
     = annotations_of (annotations data) (image_ids (out_images test)).
Proof.
  intros Hrun.
  apply split_data_inv in Hrun
    as (sh2 & sho & g1 & g2 & [[a2 b2] c2] & [[ao bo] co]
        & _ & _ & _ & _ & _ & _ & Houts).
  by injection Houts as -> -> ->.
Qed.

End Coverage.

(** X1. For every ratio triple for which [split_list] returns, negative
    or oversized ones included: the three parts are cut from one
    permutation of the items at two positions, train being a prefix, val
    following it and test a suffix, so that no item is left out and
    nothing but the items is handed out. *)
Theorem split_list_loses_nothing
    {G : Type} `{RandomSource G} (items : list image) tr vr te
    (st : pstate G) train val test :
  (split_list items tr vr te st).1 = inr (train, val, test) ->
  (forall x, x ∈ items <-> x ∈ train \/ x ∈ val \/ x ∈ test)
  /\ exists (sh : list image) (a b : nat),
      items ≡ₚ sh
      /\ train = take a sh /\ val = take (b - a) (drop a sh)
      /\ test = drop b sh.
Proof.
  intros Hrun.
  destruct (split_list_run items tr vr te st) as (sh & g & _ & Hperm & Heq).
  rewrite Heq in Hrun. cbn [fst] in Hrun. split.
  - intros x. rewrite Hperm. by apply (cut_list_cover sh tr vr).
  - apply cut_list_shape in Hrun as (a & b & _ & _ & ? & ? & ?).
    by exists sh, a, b.
Qed.

Lemma split_list_loses_nothing_witness :
  exists train val test,
    (split_list (images four_images) rm025 rm025 r15 st0).1
    = inr (train, val, test)
    /\ forall x, x ∈ images four_images
                 <-> x ∈ train \/ x ∈ val \/ x ∈ test.
Proof.
  destruct (split_list (images four_images) rm025 rm025 r15 st0).1
    as [e|[[train val] test]] eqn:Hrun; [by vm_compute in Hrun|].
  exists train, val, test. split; [done|].
  by apply (split_list_loses_nothing _ rm025 rm025 r15 st0).
Defined.

(** X2. For every ratio triple for which the run returns, the images of
    the three documents are, as a set, the images of the input: no image
    record is dropped and none is invented. *)
Theorem split_keeps_every_image
    {G : Type} `{RandomSource G} data tr vr te (st : pstate G) train val test :
  (split_data data tr vr te st).1 = inr (train, val, test) ->
  forall img,
    img ∈ images data
    <-> img ∈ out_images train ++ out_images val ++ out_images test.
Proof.
  intros Hrun img. rewrite !elem_of_app.
  by apply (split_images_cover data tr vr te st).
Qed.

Lemma split_keeps_every_image_witness :
  (split_data four_images rm025 rm025 r15 st0).1
  = inr (four_split.1.1, four_split.1.2, four_split.2)
  /\ (mk_img 2 ∈ images four_images
      <-> mk_img 2 ∈ out_images four_split.1.1 ++ out_images four_split.1.2
                      ++ out_images four_split.2).
Proof.
  split; [by vm_compute|].
  apply (split_keeps_every_image four_images rm025 rm025 r15 st0).
  by vm_compute.
Defined.

(** X3. For every ratio triple for which the run returns, an annotation
    is in the annotations of at least one split exactly when it is an
    annotation of the input whose [image_id] is the [id] of an input image:
    annotations that point at no image are silently left out of all three
    documents, the others are all kept. *)
Theorem split_keeps_referring_annotations
    {G : Type} `{RandomSource G} data tr vr te (st : pstate G) train val test :
  (split_data data tr vr te st).1 = inr (train, val, test) ->
  forall ann,
    ann ∈ out_annotations train ++ out_annotations val ++ out_annotations test
    <-> ann ∈ annotations data /\ refers_to (images data) ann.
Proof.
  intros Hrun ann.
  destruct (split_annotations_of _ _ _ _ _ _ _ _ Hrun) as (-> & -> & ->).
  rewrite !elem_of_app, !elem_of_annotations_of.
  unfold refers_to. rewrite <- elem_of_image_ids.
  rewrite (split_image_ids_cover _ _ _ _ _ _ _ _ (ann_image_id ann) Hrun).
  tauto.
Qed.

Lemma split_keeps_referring_annotations_witness :
  (split_data ten_images r08 r01 r01 st0).1
  = inr (ten_split.1.1, ten_split.1.2, ten_split.2)
  /\ (mk_ann 4 1 ∈ out_annotations ten_split.1.1
                     ++ out_annotations ten_split.1.2
                     ++ out_annotations ten_split.2
      <-> mk_ann 4 1 ∈ annotations ten_images
          /\ refers_to (images ten_images) (mk_ann 4 1)).
Proof.
  split; [by vm_compute|].
  apply (split_keeps_referring_annotations ten_images r08 r01 r01 st0).
  by vm_compute.
Defined.

(** ** [count_by_category] *)

Lemma count_fold_lookup (anns : list annotation) (m : gmap Z Z) (c : Z) :
  fold_left
    (fun counts ann =>
       <[ann_category_id ann :=
           default 0 (counts !! ann_category_id ann) + 1]> counts)
    anns m !! c
  = match length (filter (fun a => ann_category_id a = c) anns) with
    | O => m !! c
    | S k => Some (default 0 (m !! c) + Z.of_nat (S k))
    end.
Proof.
  revert m; induction anns as [|a anns IH]; intros m; [done|].
  cbn [fold_left]. rewrite IH.
  destruct (decide (ann_category_id a = c)) as [Heq|Hne].
  - rewrite filter_cons_True by done. cbn [length].
    rewrite Heq, lookup_insert_eq. cbn [default from_option id].
    destruct (length (filter _ anns)); f_equal; unfold id; lia.
  - rewrite filter_cons_False by done.
    by rewrite lookup_insert_ne.
Qed.

Lemma count_of_count_by_category (anns : list annotation) (c : Z) :
  count_of (count_by_category anns) c
  = Z.of_nat (length (filter (fun a => ann_category_id a = c) anns)).
Proof.
  unfold count_of, count_by_category. rewrite count_fold_lookup.
  rewrite lookup_empty. by destruct (length _).
Qed.

(** X4. [count_by_category] maps each category to the number of
    annotations that carry it; a category is a key of the table exactly
    when some annotation carries it, so no key has a count of zero. *)
Theorem count_by_category_counts (anns : list annotation) (c : Z) :
  count_of (count_by_category anns) c
  = Z.of_nat (length (filter (fun a => ann_category_id a = c) anns))
  /\ (is_Some (count_by_category anns !! c)
      <-> exists ann, ann ∈ anns /\ ann_category_id ann = c)
  /\ count_by_category anns !! c <> Some 0.
Proof.
  split; [apply count_of_count_by_category|].
  unfold count_by_category. rewrite count_fold_lookup, lookup_empty.
  destruct (filter (fun a => ann_category_id a = c) anns) as [|a l] eqn:Hf.
  - cbn [length]. split; [|done].
    rewrite is_Some_alt. split; [done|].
    intros (ann & Hann & Hc).
    assert (ann ∈ filter (fun a => ann_category_id a = c) anns) as Hin
      by (by apply list_elem_of_filter).
    rewrite Hf in Hin. by apply elem_of_nil in Hin.
  - cbn [length]. split; [|intros [=]; lia].
    split; [intros _|by eauto].
    assert (a ∈ filter (fun a => ann_category_id a = c) anns) as Hin
      by (rewrite Hf; left).
    apply list_elem_of_filter in Hin as [? ?]. by exists a.
Qed.

(** ** The counts of the three splits *)

Lemma filter_three_way {A} (P1 P2 P3 Q : A -> Prop)
    `{!forall x, Decision (P1 x)} `{!forall x, Decision (P2 x)}
    `{!forall x, Decision (P3 x)} `{!forall x, Decision (Q x)}
    (l : list A) :
  (forall x, x ∈ l ->
     (P1 x \/ P2 x \/ P3 x)
     /\ ~ (P1 x /\ P2 x) /\ ~ (P1 x /\ P3 x) /\ ~ (P2 x /\ P3 x)) ->
  (length (filter Q (filter P1 l)) + length (filter Q (filter P2 l))
   + length (filter Q (filter P3 l)))%nat
  = length (filter Q l).
Proof.
  induction l as [|x l IH]; intros Hl; [done|].
  assert (forall y, y ∈ l ->
            (P1 y \/ P2 y \/ P3 y)
            /\ ~ (P1 y /\ P2 y) /\ ~ (P1 y /\ P3 y) /\ ~ (P2 y /\ P3 y)) as Hl'
    by (intros y Hy; apply Hl; by right).
  specialize (IH Hl'). destruct (Hl x) as (Hany & H12 & H13 & H23); [by left|].
  rewrite (filter_cons Q), !(filter_cons P1), !(filter_cons P2),
    !(filter_cons P3).
  destruct (decide (P1 x)), (decide (P2 x)), (decide (P3 x));
    try tauto; rewrite ?(filter_cons Q); destruct (decide (Q x));
    cbn [length]; lia.
Qed.

Section Counts.

Context {G : Type} `{RandomSource G}.

(** Distinct identifiers and non-negative ratios: no identifier is in the
    id sets of two splits. *)
Lemma split_image_ids_apart data tr vr te (st : pstate G) train val test i :
  NoDup (img_id <$> images data) ->
  PyFloat.nonneg tr = true -> PyFloat.nonneg vr = true ->
  (split_data data tr vr te st).1 = inr (train, val, test) ->
  ~ (i ∈ image_ids (out_images train) /\ i ∈ image_ids (out_images val))
  /\ ~ (i ∈ image_ids (out_images train) /\ i ∈ image_ids (out_images test))
  /\ ~ (i ∈ image_ids (out_images val) /\ i ∈ image_ids (out_images test)).
Proof.
  intros Hids Htr Hvr Hrun.
  pose proof (split_images_Permutation _ _ _ _ _ _ _ _ Htr Hvr Hrun) as Hperm.
  rewrite (strata_Permutation data) in Hperm by (by eapply NoDup_fmap_1).
  assert (NoDup (img_id <$> out_images train ++ out_images val
                   ++ out_images test)) as Hnd by (by rewrite Hperm).
  rewrite !fmap_app in Hnd.
  apply NoDup_app in Hnd as (_ & Htv & Hnd).
  apply NoDup_app in Hnd as (_ & Hvt & _).
  unfold image_ids. rewrite !elem_of_list_to_set.
  split_and!; intros [Hi Hi'].
  - apply (Htv i Hi), elem_of_app. by left.
  - apply (Htv i Hi), elem_of_app. by right.
  - by apply (Hvt i Hi).
Qed.

End Counts.

(** X5. When the image identifiers are pairwise distinct, every annotation
    points at an image of the input and the train and val ratios are
    non-negative, the per-category counts that the run reports for train,
    val and test add up, category by category, to the counts of the input
    annotations. *)
Theorem split_counts_add_up
    {G : Type} `{RandomSource G} data tr vr te (st : pstate G)
    train val test (c : Z) :
  NoDup (img_id <$> images data) ->
  (forall ann, ann ∈ annotations data -> refers_to (images data) ann) ->
  PyFloat.nonneg tr = true -> PyFloat.nonneg vr = true ->
  (split_data data tr vr te st).1 = inr (train, val, test) ->
  count_of (count_by_category (out_annotations train)) c
  + count_of (count_by_category (out_annotations val)) c
  + count_of (count_by_category (out_annotations test)) c
  = count_of (count_by_category (annotations data)) c.
Proof.
  intros Hids Href Htr Hvr Hrun.
  rewrite !count_of_count_by_category.
  destruct (split_annotations_of _ _ _ _ _ _ _ _ Hrun) as (-> & -> & ->).
  unfold annotations_of. rewrite !listcomp_filter.
  rewrite <- !Nat2Z.inj_add. f_equal.
  apply filter_three_way. intros ann Hann.
  rewrite !bool_decide_spec.
  pose proof (split_image_ids_apart _ _ _ _ _ _ _ _ (ann_image_id ann)
                Hids Htr Hvr Hrun) as (H12 & H13 & H23).
  split_and!; try done.
  apply (split_image_ids_cover _ _ _ _ _ _ _ _ _ Hrun).
  apply elem_of_image_ids. by apply Href.
Qed.

Lemma split_counts_add_up_witness :
  count_of (count_by_category (out_annotations ten_split.1.1)) 2
  + count_of (count_by_category (out_annotations ten_split.1.2)) 2
  + count_of (count_by_category (out_annotations ten_split.2)) 2
  = count_of (count_by_category (annotations ten_images)) 2.
Proof.
  apply (split_counts_add_up ten_images r08 r01 r01 st0);
    [decide_by_compute| |by vm_compute..].
  intros ann Hann. unfold ten_images in Hann. cbn [annotations] in Hann.
  repeat (apply elem_of_cons in Hann as [->|Hann];
          [match goal with
           | |- refers_to _ (mk_ann ?k _) =>
               exists (mk_img k); split; [decide_by_compute|reflexivity]
           end|]).
  by apply elem_of_nil in Hann.
Defined.

(** ** Paths: base names and directories *)

Module PathFacts.

Import Path.
Local Open Scope string_scope.

Lemma append_cons (c : ascii) (a b : string) :
  String c a ++ b = String c (a ++ b).
Proof. reflexivity. Qed.

Lemma append_nil_l (b : string) : "" ++ b = b.
Proof. reflexivity. Qed.

Lemma tail_of_cons (c : ascii) (p : string) :
  tail_of (String c p)
  = if bool_decide (sep ∈ list_ascii_of_string p) then tail_of p
    else if bool_decide (c = sep) then p else String c p.
Proof. reflexivity. Qed.

Lemma head_of_cons (c : ascii) (p : string) :
  head_of (String c p)
  = if bool_decide (sep ∈ list_ascii_of_string p) then String c (head_of p)
    else if bool_decide (c = sep) then String c "" else "".
Proof. reflexivity. Qed.

Lemma list_ascii_app (a b : string) :
  list_ascii_of_string (a ++ b)
  = (list_ascii_of_string a ++ list_ascii_of_string b)%list.
Proof.
  induction a as [|c a IH]; [done|].
  rewrite append_cons. simpl. by rewrite IH.
Qed.

Lemma append_assoc (a b c : string) : (a ++ b) ++ c = a ++ (b ++ c).
Proof.
  induction a as [|x a IH]; [done|]. rewrite !append_cons. by rewrite IH.
Qed.

Lemma sep_free_cons (c : ascii) (n : string) :
  sep_free (String c n) <-> c <> sep /\ sep_free n.
Proof.
  unfold sep_free. simpl. rewrite not_elem_of_cons. naive_solver.
Qed.

Lemma tail_of_none (n : string) : sep_free n -> tail_of n = n.
Proof.
  destruct n as [|c n]; [done|]. intros [Hc Hn]%sep_free_cons. simpl.
  rewrite bool_decide_eq_false_2 by done.
  by rewrite bool_decide_eq_false_2 by done.
Qed.

Lemma head_of_none (n : string) : sep_free n -> head_of n = "".
Proof.
  destruct n as [|c n]; [done|]. intros [Hc Hn]%sep_free_cons. simpl.
  rewrite bool_decide_eq_false_2 by done.
  by rewrite bool_decide_eq_false_2 by done.
Qed.

Lemma sep_in_last (x n : string) :
  sep ∈ list_ascii_of_string (x ++ String sep n).
Proof.
  rewrite list_ascii_app. apply elem_of_app. right. simpl. left.
Qed.

Lemma tail_of_last (x n : string) :
  sep_free n -> tail_of (x ++ String sep n) = n.
Proof.
  intros Hn. induction x as [|c x IH];
    rewrite ?append_cons, ?append_nil_l, tail_of_cons.
  - rewrite bool_decide_eq_false_2 by done.
    by rewrite bool_decide_eq_true_2 by done.
  - by rewrite bool_decide_eq_true_2 by apply sep_in_last.
Qed.

Lemma head_of_last (x n : string) :
  sep_free n -> head_of (x ++ String sep n) = x ++ String sep "".
Proof.
  intros Hn. induction x as [|c x IH];
    rewrite ?append_cons, ?append_nil_l, head_of_cons.
  - rewrite bool_decide_eq_false_2 by done.
    by rewrite bool_decide_eq_true_2 by done.
  - rewrite bool_decide_eq_true_2 by apply sep_in_last. by rewrite IH.
Qed.

(** The base name of a path holds no separator. *)
Lemma tail_of_sep_free (p : string) : sep_free (tail_of p).
Proof.
  induction p as [|c p IH]; simpl; [by apply not_elem_of_nil|].
  case_bool_decide as Hin; [done|].
  case_bool_decide as Hc; [done|].
  by apply sep_free_cons.
Qed.

Lemma sep_free_starts (n : string) : sep_free n -> starts_with_sep n = false.
Proof.
  destruct n as [|c n]; [done|]. intros [Hc _]%sep_free_cons. simpl.
  by apply bool_decide_eq_false_2.
Qed.

Lemma ends_with_sep_inv (d : string) :
  ends_with_sep d = true -> exists d', d = d' ++ String sep "".
Proof.
  unfold ends_with_sep.
  destruct (rev (list_ascii_of_string d)) as [|c r] eqn:Hr; [done|].
  intros ->%bool_decide_eq_true.
  exists (string_of_list_ascii (rev r)).
  apply (f_equal (@rev ascii)) in Hr. rewrite rev_involutive in Hr.
  rewrite <- (string_of_list_ascii_of_string d), Hr. simpl.
  generalize (rev r). intros l. induction l as [|x l IH]; [done|].
  simpl. rewrite append_cons. by rewrite IH.
Qed.

(** [basename(join(d, n)) == n] for a path component [n]. *)
Lemma basename_join (d n : string) :
  sep_free n -> basename (join d n) = n.
Proof.
  intros Hn. unfold basename, join. rewrite sep_free_starts by done.
  destruct (bool_decide (d = "") || ends_with_sep d) eqn:Hd.
  - apply orb_true_iff in Hd as [->%bool_decide_eq_true|Hd].
    + by apply tail_of_none.
    + apply ends_with_sep_inv in Hd as [d' ->].
      rewrite append_assoc. by apply tail_of_last.
  - by apply (tail_of_last d n).
Qed.

Lemma drop_leading_sep_head (l : list ascii) :
  match drop_leading_sep l with
  | c :: _ => c <> sep
  | [] => True
  end.
Proof.
  induction l as [|c l IH]; simpl; [done|]. by case_bool_decide.
Qed.

Lemma ends_with_sep_rstrip (h : string) : ends_with_sep (rstrip_sep h) = false.
Proof.
  unfold ends_with_sep, rstrip_sep.
  rewrite list_ascii_of_string_of_list_ascii, rev_involutive.
  pose proof (drop_leading_sep_head (rev (list_ascii_of_string h))) as Hh.
  destruct (drop_leading_sep _); [done|]. by apply bool_decide_eq_false_2.
Qed.

(** What [dirname] returns is empty, or made of separators only, or does
    not end with a separator. *)
Lemma dirname_normal (p : string) :
  dirname p = "" \/ all_sep (dirname p) = true
  \/ ends_with_sep (dirname p) = false.
Proof.
  unfold dirname.
  destruct (bool_decide (head_of p = "") || all_sep (head_of p)) eqn:Hh.
  - apply orb_true_iff in Hh as [Hh%bool_decide_eq_true|Hh]; auto.
  - right; right. apply ends_with_sep_rstrip.
Qed.

Lemma all_sep_ends (d : string) :
  all_sep d = true -> d <> "" -> ends_with_sep d = true.
Proof.
  unfold all_sep, ends_with_sep. intros Hall Hd.
  rewrite forallb_forall in Hall.
  destruct (rev (list_ascii_of_string d)) as [|c r] eqn:Hr.
  - apply (f_equal (@rev ascii)) in Hr. rewrite rev_involutive in Hr.
    destruct d; [done|discriminate Hr].
  - apply Hall. apply in_rev. rewrite Hr. by left.
Qed.

Lemma rstrip_sep_last (d : string) :
  d <> "" -> ends_with_sep d = false -> rstrip_sep (d ++ String sep "") = d.
Proof.
  unfold ends_with_sep, rstrip_sep. intros Hd He.
  rewrite list_ascii_app, rev_app_distr.
  change (rev (list_ascii_of_string (String sep "")) ++ ?l)%list
    with (sep :: l).
  change (drop_leading_sep (sep :: ?l)) with (drop_leading_sep l).
  destruct (rev (list_ascii_of_string d)) as [|c r] eqn:Hr.
  - apply (f_equal (@rev ascii)) in Hr. rewrite rev_involutive in Hr.
    destruct d; [done|discriminate Hr].
  - simpl. rewrite He. rewrite <- Hr, rev_involutive.
    apply string_of_list_ascii_of_string.
Qed.

Lemma all_sep_last (d : string) :
  d <> "" -> ends_with_sep d = false -> all_sep (d ++ String sep "") = false.
Proof.
  unfold ends_with_sep, all_sep. intros Hd He.
  rewrite list_ascii_app. apply not_true_iff_false. intros Hall.
  rewrite forallb_forall in Hall.
  destruct (rev (list_ascii_of_string d)) as [|c r] eqn:Hr.
  - apply (f_equal (@rev ascii)) in Hr. rewrite rev_involutive in Hr.
    destruct d; [done|discriminate Hr].
  - assert (bool_decide (c = sep) = true) as Hc; [|congruence].
    apply Hall. apply in_or_app. left. apply in_rev. rewrite Hr. by left.
Qed.

(** [dirname(join(d, n)) == d] for a directory [d] as [dirname] returns
    them and a path component [n]. *)
Lemma dirname_join (d n : string) :
  sep_free n ->
  d = "" \/ all_sep d = true \/ ends_with_sep d = false ->
  dirname (join d n) = d.
Proof.
  intros Hn Hd. unfold join. rewrite sep_free_starts by done.
  destruct (decide (d = "")) as [->|Hne].
  { rewrite (bool_decide_eq_true_2 ("" = "")) by done. cbn [orb].
    rewrite append_nil_l. unfold dirname. by rewrite head_of_none. }
  destruct Hd as [?|[Hall|Hend]]; [done| |].
  - pose proof (all_sep_ends d Hall Hne) as Hend. rewrite Hend, orb_true_r.
    destruct (ends_with_sep_inv d Hend) as [d' ->].
    unfold dirname. rewrite append_assoc, append_cons, append_nil_l.
    rewrite head_of_last by done.
    by rewrite Hall, orb_true_r.
  - rewrite Hend, orb_false_r, bool_decide_eq_false_2 by done.
    unfold dirname. change (d ++ "/" ++ n) with (d ++ String sep n).
    rewrite head_of_last by done.
    rewrite all_sep_last, orb_false_r by done.
    rewrite bool_decide_eq_false_2 by (by destruct d).
    by apply rstrip_sep_last.
Qed.

End PathFacts.

(** ** The exceptions of [int(total * r)] *)

Module PyFloatErrors.

Import PyFloat.

Lemma add_not_finite_l (x y : float) :
  ~ finite_float x -> ~ finite_float (add x y).
Proof.
  destruct x as [sx|sx| |sx mx ex]; simpl; try tauto; intros _;
    destruct y as [sy|sy| |sy my ey]; simpl; try tauto;
    destruct sx, sy; simpl; tauto.
Qed.

Lemma add_not_finite_r (x y : float) :
  ~ finite_float y -> ~ finite_float (add x y).
Proof.
  destruct y as [sy|sy| |sy my ey]; simpl; try tauto; intros _;
    destruct x as [sx|sx| |sx mx ex]; simpl; try tauto;
    destruct sx, sy; simpl; tauto.
Qed.

Lemma check_not_finite (x : float) :
  ~ finite_float x -> ltb (abs (sub x one)) tolerance = false.
Proof.
  destruct x as [sx|sx| |sx mx ex]; simpl; try tauto; intros _; done.
Qed.

Lemma finite_float_dec (x : float) : {finite_float x} + {~ finite_float x}.
Proof. destruct x; simpl; auto. Defined.

(** A triple that passes the check of line 16 holds no NaN and no
    infinity. *)
Lemma ratio_sum_ok_finite (tr vr te : float) :
  ratio_sum_ok tr vr te = true ->
  finite_float tr /\ finite_float vr /\ finite_float te.
Proof.
  unfold ratio_sum_ok. intros Hok.
  assert (finite_float (add (add tr vr) te)) as Hsum.
  { destruct (finite_float_dec (add (add tr vr) te)) as [?|Hn]; [done|].
    apply check_not_finite in Hn. congruence. }
  assert (finite_float te)
    by (destruct (finite_float_dec te) as [?|Hn]; [done|];
        by apply (add_not_finite_r (add tr vr)) in Hn).
  assert (finite_float (add tr vr))
    by (destruct (finite_float_dec (add tr vr)) as [?|Hn]; [done|];
        by apply (add_not_finite_l _ te) in Hn).
  split_and!; [| |done].
  - destruct (finite_float_dec tr) as [?|Hn]; [done|].
    by apply (add_not_finite_l _ vr) in Hn.
  - destruct (finite_float_dec vr) as [?|Hn]; [done|].
    by apply (add_not_finite_r tr) in Hn.
Qed.

Lemma binary_round_aux_not_nan (s : bool) (p : positive) (ex : Z) :
  binary_round_aux prec emax s (Z.pos p) ex loc_Exact <> S754_nan.
Proof.
  unfold binary_round_aux.
  destruct (PyFloatFacts.shr_fexp_spec (Z.pos p) ex loc_Exact)
    as (mrs' & e' & -> & He' & Hm' & _); [lia|].
  assert (0 <= shr_m mrs') as Hm'0
    by (rewrite Hm'; apply Z.div_pos; [lia|apply Z.pow_pos_nonneg; lia]).
  pose proof (PyFloatFacts.round_nearest_even_bounds
                (shr_m mrs') (loc_of_shr_record mrs')) as Hm1.
  destruct (PyFloatFacts.shr_fexp_spec
              (round_nearest_even (shr_m mrs') (loc_of_shr_record mrs'))
              e' loc_Exact)
    as (mrs'' & e'' & -> & He'' & Hm'' & _); [lia|].
  assert (0 <= shr_m mrs'') as Hm''0
    by (rewrite Hm''; apply Z.div_pos; [lia|apply Z.pow_pos_nonneg; lia]).
  destruct (shr_m mrs''); [done| |lia].
  by destruct (_ <=? _).
Qed.

Lemma round_Z_not_nan (z : Z) : round_Z z <> S754_nan.
Proof.
  destruct z as [|m|m]; [done| |]; unfold round_Z, binary_normalize,
    binary_round; destruct (shl_align _ _ _) as [mz ez];
    apply binary_round_aux_not_nan.
Qed.

Lemma mul_finite_not_nan (t r : float) :
  finite_float t -> finite_float r -> mul t r <> S754_nan.
Proof.
  destruct t as [st|st| |st mt et]; destruct r as [sr|sr| |sr mr er];
    simpl; try done.
  intros _ _. apply binary_round_aux_not_nan.
Qed.

End PyFloatErrors.

(** With a finite ratio, [int(total * r)] can only fail by overflow. *)
Lemma scaled_count_error (total : Z) (r : float) (e : exn) :
  finite_float r -> scaled_count total r = inl e -> e = OverflowError.
Proof.
  intros Hr. unfold scaled_count, PyFloat.of_int, ebind.
  pose proof (PyFloatErrors.round_Z_not_nan total) as Hnn.
  destruct (PyFloat.round_Z total) as [st|st| |st mt et] eqn:Ht;
    try done; try (by intros [= <-]).
  - pose proof (PyFloatErrors.mul_finite_not_nan (S754_zero st) r I Hr).
    destruct (PyFloat.mul _ r); simpl; try done; by intros [= <-].
  - pose proof (PyFloatErrors.mul_finite_not_nan
                  (S754_finite st mt et) r I Hr).
    destruct (PyFloat.mul _ r); simpl; try done; by intros [= <-].
Qed.

Lemma cut_list_error (sh : list image) tr vr (e : exn) :
  finite_float tr -> finite_float vr ->
  cut_list sh tr vr = inl e -> e = OverflowError.
Proof.
  intros Htr Hvr. unfold cut_list, ebind.
  destruct (scaled_count _ tr) as [e1|tc] eqn:H1.
  { intros [= <-]. exact (scaled_count_error _ tr _ Htr H1). }
  destruct (scaled_count _ vr) as [e2|vc] eqn:H2; [|done].
  intros [= <-]. exact (scaled_count_error _ vr _ Hvr H2).
Qed.

Section Cases.

Context {G : Type} `{RandomSource G}.

Lemma split_data_error data tr vr te (st : pstate G) (e : exn) :
  finite_float tr -> finite_float vr ->
  (split_data data tr vr te st).1 = inl e -> e = OverflowError.
Proof.
  intros Htr Hvr.
  destruct (split_data_run data tr vr te st)
    as (sh2 & sho & g1 & g2 & _ & _ & _ & _ & ->).
  destruct (cut_list sh2 tr vr) as [e1|cat2] eqn:H2.
  { intros [= <-]. exact (cut_list_error _ _ _ _ Htr Hvr H2). }
  destruct (cut_list sho tr vr) as [e1|other] eqn:Ho; [|done].
  intros [= <-]. exact (cut_list_error _ _ _ _ Htr Hvr Ho).
Qed.

(** The four ways a run can go. *)
Lemma split_coco_json_cases E input_file tr vr te (st : pstate G) :
  let run := split_coco_json E input_file tr vr te st in
  let train_file := Path.join (Path.dirname input_file) "train.json" in
  let val_file := Path.join (Path.dirname input_file) "val.json" in
  let test_file := Path.join (Path.dirname input_file) "test.json" in
  (ratio_sum_ok tr vr te = false /\ run = (inl AssertionError, st))
  \/ (ratio_sum_ok tr vr te = true
      /\ exists e,
          env_read E input_file = ReadFails e
          /\ run = (inl e,
                    {| st_rng := st_rng st;
                       st_trace := st_trace st ++ [EvRead input_file] |}))
  \/ (ratio_sum_ok tr vr te = true
      /\ exists data g,
          env_read E input_file = ReadOk data
          /\ (split_data data tr vr te st).1 = inl OverflowError
          /\ run = (inl OverflowError,
                    {| st_rng := g;
                       st_trace := st_trace st ++ [EvRead input_file] |}))
  \/ (ratio_sum_ok tr vr te = true
      /\ exists data train val test g evs,
          env_read E input_file = ReadOk data
          /\ (split_data data tr vr te st).1 = inr (train, val, test)
          /\ run = (inr (train_file, val_file, test_file),
                    {| st_rng := g;
                       st_trace := st_trace st ++ EvRead input_file :: evs |})
          /\ write_attempts evs
             = attempts_for E train_file ++ attempts_for E val_file
               ++ attempts_for E test_file
          /\ writes evs
             = landed E train train_file ++ landed E val val_file
               ++ landed E test test_file).
Proof.
  intros run train_file val_file test_file.
  destruct (ratio_sum_ok tr vr te) eqn:Hok.
  2:{ left. split; [done|]. subst run. unfold split_coco_json.
      by rewrite Hok. }
  right. destruct (env_read E input_file) as [data|e] eqn:Hread.
  2:{ left. split; [done|]. exists e. split; [done|].
      subst run. unfold split_coco_json. rewrite Hok. cbn [negb].
      by rewrite bind_run, load_run, Hread. }
  right. destruct (split_data data tr vr te st).1 as [e|[[train val] test]]
    eqn:Hsplit.
  - left. split; [done|].
    destruct (PyFloatErrors.ratio_sum_ok_finite _ _ _ Hok) as (Htr & Hvr & _).
    pose proof (split_data_error _ _ _ _ _ _ Htr Hvr Hsplit) as ->.
    pose proof Hsplit as Hsplit0.
    set (st1 := {| st_rng := st_rng st;
                   st_trace := st_trace st ++ [EvRead input_file] |}).
    rewrite (split_data_state_irrelevant data tr vr te st st1) in Hsplit.
    pose proof (split_data_trace data tr vr te st1) as Htrace.
    destruct (split_data data tr vr te st1) as [r [g2 t2]] eqn:Hsd.
    cbn [fst snd st_trace] in Hsplit, Htrace. subst r t2.
    exists data, g2. split_and!; [done|done|].
    subst run. unfold split_coco_json. rewrite Hok. cbn [negb].
    rewrite bind_run, load_run, Hread. fold st1.
    by rewrite bind_run, Hsd.
  - right. split; [done|].
    destruct (split_coco_json_run E input_file tr vr te st data
                train val test Hok Hread Hsplit)
      as (g & evs & Hrun & Hatt & Hwr).
    by exists data, train, val, test, g, evs.
Qed.

End Cases.

(** X6. Whenever a run raises, no write has been attempted, no document
    has been written and the writer has reported nothing: all that the run
    has done to the outside by then is, at most, to open its input. *)
Theorem run_raises_before_writing
    {G : Type} `{RandomSource G} E input_file tr vr te (st : pstate G) e :
  (split_coco_json E input_file tr vr te st).1 = inl e ->
  exists evs,
    st_trace (split_coco_json E input_file tr vr te st).2
    = st_trace st ++ evs
    /\ (evs = [] \/ evs = [EvRead input_file])
    /\ write_attempts evs = []
    /\ writes evs = []
    /\ reports evs = [].
Proof.
  intros Hrun.
  destruct (split_coco_json_cases E input_file tr vr te st)
    as [[Hok Heq]|[(Hok & e1 & Hread & Heq)
       |[(Hok & data & g & Hread & _ & Heq)
        |(Hok & data & train & val & test & g & evs & _ & _ & Heq & _)]]];
    rewrite Heq in Hrun |- *; cbn [fst snd st_trace] in *.
  - exists []. rewrite app_nil_r. split_and!; [done|by left|done..].
  - exists [EvRead input_file]. split_and!; [done|by right|done..].
  - exists [EvRead input_file]. split_and!; [done|by right|done..].
  - done.
Qed.

Lemma run_raises_before_writing_witness :
  (split_coco_json env0 "/nowhere/result.json" r08 r01 r01 st0).1
  = inl OSError
  /\ write_attempts
       (st_trace (split_coco_json env0 "/nowhere/result.json"
                    r08 r01 r01 st0).2) = []
  /\ reports
       (st_trace (split_coco_json env0 "/nowhere/result.json"
                    r08 r01 r01 st0).2) = [].
Proof.
  split; [by vm_compute|].
  destruct (run_raises_before_writing env0 "/nowhere/result.json"
              r08 r01 r01 st0 OSError)
    as (evs & Htrace & _ & Hatt & _ & Hrep); [by vm_compute|].
  rewrite Htrace. cbn [st0 st_trace app]. by split.
Defined.

(** ** Where the documents are written *)

Lemma sep_free_output_names :
  sep_free "train.json" /\ sep_free "val.json" /\ sep_free "test.json".
Proof. split_and!; decide_by_compute. Qed.

Lemma attempts_basename (E : env) (p q : string) :
  q ∈ attempts_for E p -> Path.basename q = Path.basename p.
Proof.
  unfold attempts_for.
  assert (Path.basename (fallback_path E p) = Path.basename p) as Hfb
    by (apply PathFacts.basename_join, PathFacts.tail_of_sep_free).
  destruct (env_write E p); set_solver.
Qed.

Lemma landing_attempted (E : env) (p q : string) :
  landing E p = Some q -> q ∈ attempts_for E p.
Proof.
  unfold landing, attempts_for.
  destruct (env_write E p); [set_solver| |done].
  destruct (env_write E (fallback_path E p)); set_solver.
Qed.

Lemma landed_paths (E : env) (d : output_data) (p : string) :
  (landed E d p).*1 = [] \/ exists q,
    (landed E d p).*1 = [q] /\ Path.basename q = Path.basename p.
Proof.
  unfold landed. destruct (landing E p) as [q|] eqn:Hl; [|by left].
  right. exists q. split; [done|].
  by apply (attempts_basename E), landing_attempted.
Qed.

Section Written.

Context {G : Type} `{RandomSource G}.

(** What a run appends to the trace, and the base names of the paths it
    touches. *)
Lemma run_attempts_named E input_file tr vr te (st : pstate G) :
  exists evs a1 a2 a3 w1 w2 w3,
    st_trace (split_coco_json E input_file tr vr te st).2
    = st_trace st ++ evs
    /\ write_attempts evs = a1 ++ a2 ++ a3
    /\ (writes evs).*1 = w1 ++ w2 ++ w3
    /\ Forall (fun q => Path.basename q = "train.json"%string) (a1 ++ w1)
    /\ Forall (fun q => Path.basename q = "val.json"%string) (a2 ++ w2)
    /\ Forall (fun q => Path.basename q = "test.json"%string) (a3 ++ w3)
    /\ (length w1 <= 1)%nat /\ (length w2 <= 1)%nat /\ (length w3 <= 1)%nat.
Proof.
  destruct sep_free_output_names as (Ht & Hv & Hte).
  destruct (split_coco_json_cases E input_file tr vr te st)
    as [[Hok Heq]|[(Hok & e1 & Hread & Heq)
       |[(Hok & data & g & Hread & _ & Heq)
        |(Hok & data & train & val & test & g & evs & _ & _ & Heq
          & Hatt & Hwr)]]];
    rewrite Heq; cbn [snd st_trace].
  - exists [], [], [], [], [], [], []. rewrite app_nil_r.
    split_and!; by try constructor.
  - exists [EvRead input_file], [], [], [], [], [], [].
    split_and!; by try constructor.
  - exists [EvRead input_file], [], [], [], [], [], [].
    split_and!; by try constructor.
  - set (dir := Path.dirname input_file) in *.
    exists (EvRead input_file :: evs),
      (attempts_for E (Path.join dir "train.json")),
      (attempts_for E (Path.join dir "val.json")),
      (attempts_for E (Path.join dir "test.json")),
      (landed E train (Path.join dir "train.json")).*1,
      (landed E val (Path.join dir "val.json")).*1,
      (landed E test (Path.join dir "test.json")).*1.
    assert (forall d n, sep_free n ->
              Forall (fun q => Path.basename q = n)
                (attempts_for E (Path.join dir n)
                 ++ (landed E d (Path.join dir n)).*1)
              /\ (length (landed E d (Path.join dir n)).*1 <= 1)%nat)
      as Hnamed.
    { intros d n Hn. rewrite Forall_app.
      pose proof (PathFacts.basename_join dir n Hn) as Hb.
      split_and!.
      - apply Forall_forall. intros q Hq.
        by rewrite (attempts_basename E _ q Hq).
      - destruct (landed_paths E d (Path.join dir n))
          as [->|(q & -> & Hq)]; [constructor|].
        constructor; [congruence|constructor].
      - destruct (landed_paths E d (Path.join dir n))
          as [->|(q & -> & Hq)]; simpl; lia. }
    split_and!;
      first [done|exact Hatt|by rewrite <- !fmap_app, <- Hwr
            |by apply (Hnamed train)|by apply (Hnamed val)
            |by apply (Hnamed test)].
Qed.

End Written.

(** X7. In every run, every path a write is attempted on (fallback paths
    included) has the base name [train.json], [val.json] or [test.json],
    and no two documents are written to one path: no split ever
    overwrites another. *)
Theorem written_files_never_collide
    {G : Type} `{RandomSource G} E input_file tr vr te (st : pstate G) :
  exists evs,
    st_trace (split_coco_json E input_file tr vr te st).2 = st_trace st ++ evs
    /\ (forall q, q ∈ write_attempts evs -> Path.basename q ∈ output_names)
    /\ NoDup (writes evs).*1.
Proof.
  destruct (run_attempts_named E input_file tr vr te st)
    as (evs & a1 & a2 & a3 & w1 & w2 & w3 & Htr & Ha & Hw
        & H1 & H2 & H3 & L1 & L2 & L3).
  exists evs. split; [done|].
  rewrite Forall_app in H1, H2, H3.
  destruct H1 as [Ha1 Hw1], H2 as [Ha2 Hw2], H3 as [Ha3 Hw3].
  rewrite Forall_forall in Ha1, Ha2, Ha3, Hw1, Hw2, Hw3.
  split.
  - intros q. rewrite Ha, !elem_of_app. unfold output_names.
    intros [Hq|[Hq|Hq]];
      [rewrite (Ha1 q Hq)|rewrite (Ha2 q Hq)|rewrite (Ha3 q Hq)];
      set_solver.
  - rewrite Hw.
    assert (forall w : list string, (length w <= 1)%nat -> NoDup w) as Hone.
    { intros [|x [|y w]] Hl; simpl in Hl; [constructor| |lia].
      apply NoDup_singleton. }
    apply NoDup_app. split_and!; [by apply Hone| |].
    + intros q Hq1 [Hq2|Hq3]%elem_of_app.
      * pose proof (Hw1 q Hq1). pose proof (Hw2 q Hq2). congruence.
      * pose proof (Hw1 q Hq1). pose proof (Hw3 q Hq3). congruence.
    + apply NoDup_app. split_and!; [by apply Hone| |by apply Hone].
      intros q Hq2 Hq3.
      pose proof (Hw2 q Hq2). pose proof (Hw3 q Hq3). congruence.
Qed.

(** X8. A run never writes to its input file, unless the input file is
    itself named [train.json], [val.json] or [test.json]. *)
Theorem input_file_not_overwritten
    {G : Type} `{RandomSource G} E input_file tr vr te (st : pstate G) :
  Path.basename input_file ∉ output_names ->
  exists evs,
    st_trace (split_coco_json E input_file tr vr te st).2 = st_trace st ++ evs
    /\ input_file ∉ write_attempts evs.
Proof.
  intros Hname.
  destruct (run_attempts_named E input_file tr vr te st)
    as (evs & a1 & a2 & a3 & w1 & w2 & w3 & Htr & Ha & _
        & H1 & H2 & H3 & _).
  exists evs. split; [done|].
  rewrite Forall_app in H1, H2, H3.
  destruct H1 as [Ha1 _], H2 as [Ha2 _], H3 as [Ha3 _].
  rewrite Forall_forall in Ha1, Ha2, Ha3.
  rewrite Ha, !elem_of_app. unfold output_names in Hname.
  intros [Hq|[Hq|Hq]]; apply Hname;
    [rewrite (Ha1 _ Hq)|rewrite (Ha2 _ Hq)|rewrite (Ha3 _ Hq)]; set_solver.
Qed.

Lemma input_file_not_overwritten_witness :
  exists evs,
    st_trace (split_coco_json env0 "/d/result.json" r08 r01 r01 st0).2
    = st_trace st0 ++ evs
    /\ "/d/result.json"%string ∉ write_attempts evs.
Proof.
  apply (input_file_not_overwritten env0 "/d/result.json" r08 r01 r01 st0).
  decide_by_compute.
Defined.

(** X9. The three paths a run returns are [train.json], [val.json] and
    [test.json] in the directory of the input file. *)
Theorem outputs_beside_input
    {G : Type} `{RandomSource G} E input_file tr vr te (st : pstate G)
    (p_train p_val p_test : string) :
  (split_coco_json E input_file tr vr te st).1
  = inr (p_train, p_val, p_test) ->
  Path.dirname p_train = Path.dirname input_file
  /\ Path.dirname p_val = Path.dirname input_file
  /\ Path.dirname p_test = Path.dirname input_file
  /\ Path.basename p_train = "train.json"%string
  /\ Path.basename p_val = "val.json"%string
  /\ Path.basename p_test = "test.json"%string.
Proof.
  intros Hrun.
  destruct sep_free_output_names as (Ht & Hv & Hte).
  destruct (split_coco_json_cases E input_file tr vr te st)
    as [[Hok Heq]|[(Hok & e1 & Hread & Heq)
       |[(Hok & data & g & Hread & _ & Heq)
        |(Hok & data & train & val & test & g & evs & _ & _ & Heq & _)]]];
    rewrite Heq in Hrun; cbn [fst] in Hrun; try done.
  injection Hrun as <- <- <-.
  pose proof (PathFacts.dirname_normal input_file) as Hn.
  split_and!;
    first [by apply PathFacts.dirname_join|by apply PathFacts.basename_join].
Qed.

Lemma outputs_beside_input_witness :
  (split_coco_json env0 "/d/result.json" r08 r01 r01 st0).1
  = inr ("/d/train.json", "/d/val.json", "/d/test.json")%string
  /\ Path.dirname "/d/train.json" = Path.dirname "/d/result.json".
Proof.
  split; [by vm_compute|].
  apply (outputs_beside_input env0 "/d/result.json" r08 r01 r01 st0
           "/d/train.json" "/d/val.json" "/d/test.json").
  by vm_compute.
Defined.

(** ** The [__main__] block *)

(** X10. Run as a script, with [result.json] beside the script readable
    and holding fewer than [2^53] images: the default ratios pass the
    check, no [int()] overflows, the run returns [train.json], [val.json]
    and [test.json] in the directory of the script, and a write of each of
    the three documents is attempted there. *)
Theorem main_writes_beside_script
    {G : Type} `{RandomSource G} E script (st : pstate G) data :
  env_read E (Path.join (Path.dirname script) "result.json") = ReadOk data ->
  Z.of_nat (length (images data)) < 2 ^ 53 ->
  let dir := Path.dirname script in
  exists g evs train val test,
    (split_data data r08 r01 r01 st).1 = inr (train, val, test)
    /\ main E script st
       = (inr (Path.join dir "train.json", Path.join dir "val.json",
               Path.join dir "test.json"),
          {| st_rng := g;
             st_trace :=
               st_trace st ++ EvRead (Path.join dir "result.json") :: evs |})
    /\ write_attempts evs
       = attempts_for E (Path.join dir "train.json")
         ++ attempts_for E (Path.join dir "val.json")
         ++ attempts_for E (Path.join dir "test.json")
    /\ writes evs
       = landed E train (Path.join dir "train.json")
         ++ landed E val (Path.join dir "val.json")
         ++ landed E test (Path.join dir "test.json").
Proof.
  intros Hread Hlen dir.
  destruct default_ratios_moderate as [H08 H01].
  destruct (split_data_total data r08 r01 r01 st Hlen H08 H01)
    as (train & val & test & Hsplit).
  assert (ratio_sum_ok r08 r01 r01 = true) as Hok by (by vm_compute).
  destruct (split_coco_json_run E (Path.join dir "result.json")
              r08 r01 r01 st data train val test Hok Hread Hsplit)
    as (g & evs & Hrun & Hatt & Hwr).
  assert (Path.dirname (Path.join dir "result.json") = dir) as Hdir.
  { apply PathFacts.dirname_join; [decide_by_compute|].
    apply PathFacts.dirname_normal. }
  rewrite Hdir in Hrun, Hatt, Hwr.
  by exists g, evs, train, val, test.
Qed.

Lemma main_writes_beside_script_witness :
  exists g evs,
    main env0 "/d/split_coco_json.py" st0
    = (inr ("/d/train.json", "/d/val.json", "/d/test.json")%string,
       {| st_rng := g; st_trace := EvRead "/d/result.json" :: evs |})
    /\ write_attempts evs
       = ["/d/train.json"; "/d/val.json"; "/home/u/val.json";
          "/d/test.json"]%string.
Proof.
  destruct (main_writes_beside_script env0 "/d/split_coco_json.py" st0
              ten_images)
    as (g & evs & train & val & test & _ & Hrun & Hatt & _);
    [by vm_compute..|].
  exists g, evs. split; [exact Hrun|]. rewrite Hatt. by vm_compute.
Defined.

(** ** Small strata *)

Lemma scaled_count_tenth_small (n : Z) :
  0 <= n < 10 -> scaled_count n r01 = inr 0.
Proof.
  intros Hn. rewrite <- (Z2Nat.id n) by lia.
  assert (Z.to_nat n < 10)%nat as Hk by lia.
  revert Hk. generalize (Z.to_nat n) as k. clear.
  intros k Hk. do 10 (destruct k as [|k]; [by vm_compute|]). lia.
Qed.

Lemma py_slice_empty {A} (l : list A) (a : Z) :
  py_slice (Some a) (Some (a + 0)) l = [].
Proof.
  unfold py_slice. cbn [default from_option id]. unfold id.
  rewrite Z.add_0_r, Z.sub_diag. by rewrite take_0.
Qed.

Lemma cut_list_tenth_small (sh : list image) tr train val test :
  (length sh < 10)%nat ->
  cut_list sh tr r01 = inr (train, val, test) -> val = [].
Proof.
  intros Hlen. unfold cut_list, ebind.
  destruct (scaled_count _ tr) as [e|tc]; [done|].
  rewrite scaled_count_tenth_small by lia.
  intros [= <- <- <-]. apply py_slice_empty.
Qed.

Lemma annotations_of_no_images (anns : list annotation) :
  annotations_of anns (image_ids []) = [].
Proof.
  destruct (annotations_of anns (image_ids [])) as [|a l] eqn:Heq; [done|].
  assert (a ∈ annotations_of anns (image_ids [])) as Hin
    by (rewrite Heq; left).
  apply elem_of_annotations_of in Hin as [Hin _].
  apply elem_of_image_ids in Hin as (img & Himg & _).
  by apply elem_of_nil in Himg.
Qed.

(** X11. With the default val ratio 0.1 and fewer than ten images in the
    input, [int(total * 0.1)] is 0 in both strata: the val document has no
    image and no annotation, whatever the train ratio. *)
Theorem small_input_empty_val
    {G : Type} `{RandomSource G} data tr te (st : pstate G) train val test :
  (length (images data) < 10)%nat ->
  (split_data data tr r01 te st).1 = inr (train, val, test) ->
  out_images val = [] /\ out_annotations val = [].
Proof.
  intros Hlen Hrun.
  apply split_data_inv in Hrun
    as (sh2 & sho & g1 & g2 & [[a2 b2] c2] & [[ao bo] co]
        & _ & Hp2 & _ & Hpo & Hc2 & Hco & Houts).
  injection Houts as -> -> ->.
  pose proof (length_collect (priority data) (images data) []) as Hl2.
  pose proof (length_collect
                (fun img => bool_decide (img ∉ cat2_images data))
                (images data) []) as Hlo.
  rewrite <- cat2_images_collect in Hl2.
  rewrite <- other_images_collect in Hlo.
  apply Permutation_length in Hp2, Hpo. simpl in Hl2, Hlo.
  apply cut_list_tenth_small in Hc2 as ->; [|lia].
  apply cut_list_tenth_small in Hco as ->; [|lia].
  split; [done|]. simpl. apply annotations_of_no_images.
Qed.

Lemma small_input_empty_val_witness :
  (split_data four_images r08 r01 r01 st0).1
  = inr (four_default_split.1.1, four_default_split.1.2,
         four_default_split.2)
  /\ out_images four_default_split.1.2 = []
  /\ out_annotations four_default_split.1.2 = [].
Proof.
  split; [by vm_compute|].
  apply (small_input_empty_val four_images r08 r01 st0
           four_default_split.1.1 four_default_split.1.2
           four_default_split.2); [simpl; lia|by vm_compute].
Defined.

(** ** The strata *)

(** X13. The priority stratum holds exactly the images of the input that
    some annotation of category 0 or 1 points at, the other stratum
    exactly the images that none points at; an input without such
    annotations has an empty priority stratum. *)
Theorem strata_by_category (data : document) (img : image) :
  let pointed :=
    exists ann, ann ∈ annotations data /\ ann_image_id ann = img_id img
                /\ (ann_category_id ann = 0 \/ ann_category_id ann = 1) in
  (img ∈ cat2_images data <-> img ∈ images data /\ pointed)
  /\ (img ∈ other_images data <-> img ∈ images data /\ ~ pointed)
  /\ ((forall ann, ann ∈ annotations data ->
         ann_category_id ann <> 0 /\ ann_category_id ann <> 1) ->
      cat2_images data = []).
Proof.
  intros pointed. subst pointed.
  rewrite elem_of_cat2_images, elem_of_other_images, <- priority_spec.
  split_and!; [done| |].
  - destruct (priority data img); naive_solver.
  - intros Hnone.
    destruct (cat2_images data) as [|x l] eqn:Heq; [done|].
    assert (x ∈ cat2_images data) as Hx by (rewrite Heq; left).
    apply elem_of_cat2_images in Hx as [_ Hp].
    apply priority_spec in Hp as (ann & Hann & _ & Hc).
    destruct (Hnone ann Hann). lia.
Qed.
